(** * ODIN out-of-distribution evaluation: a shallow embedding

    Embedding of [evaluation_scripts/evaluate_odin.py]: the FPR-at-95%-TPR
    metric [fpr95], the ODIN perturbation scorer [ODIN] and the metric
    aggregator [odin_results].

    Floating-point numbers are kept abstract behind the interface [Arith];
    the structural statements hold for every implementation of it, the
    statements about exact arithmetic are made at the instance of the real
    numbers, and what values that are not numbers do to the scorer is shown
    at an instance that has one.  Calls into tensorflow, scikit-learn and
    the repository's configuration module are collected in the interface
    [Externals]. *)

From stdpp Require Import gmap strings list fin_maps.
From Stdlib Require Import QArith Qround Reals Lra Lia.
Close Scope Q_scope.

Set Default Proof Using "Type".

(** ** Python exceptions and the result of a call that may raise *)

Inductive exn : Type :=
  | ValueError
  | IndexError
  | InvalidArgumentError.

Inductive res (A : Type) : Type :=
  | Ok (a : A)
  | Raise (e : exn).
Arguments Ok {A} a.
Arguments Raise {A} e.

#[global] Instance res_ret : MRet res := λ A a, Ok a.
#[global] Instance res_bind : MBind res := λ A B f r,
  match r with
  | Ok a => f a
  | Raise e => Raise e
  end.

Fixpoint res_mapM {A B : Type} (f : A → res B) (l : list A) : res (list B) :=
  match l with
  | [] => Ok []
  | a :: l' => b ← f a; bs ← res_mapM f l'; Ok (b :: bs)
  end.

(** ** Numbers *)

(** The operations the program applies to floating-point scalars. *)
Class Arith (F : Type) : Type := {
  flit : Q → F;          (* a numeric literal of the source text *)
  fadd : F → F → F;
  fsub : F → F → F;
  fmul : F → F → F;
  fdiv : F → F → F;
  fexp : F → F;          (* np.exp *)
  fsign : F → F;         (* tf.sign *)
  fltb : F → F → bool;   (* a < b *)
  fleb : F → F → bool;   (* a <= b *)
}.

(** Values stored in the result dictionary: floats, and the integer the
    source substitutes for an undefined AUC. *)
Inductive pyval (F : Type) : Type :=
  | PyFloat (x : F)
  | PyInt (z : Z).
Arguments PyFloat {F} x.
Arguments PyInt {F} z.

(** ** Iterables *)

(** Modelled from the spec: the object returned by [Dataset.load()]
    ([datasets.make_datasets] is not part of the sources).  The spec's data
    model calls it a finite sequence of batches, consumed once per pass and
    not necessarily restartable.  [Reiterable] starts from the first batch on
    every pass; [OneShot] hands out each batch once. *)
Inductive iterable (A : Type) : Type :=
  | Reiterable (items : list A)
  | OneShot (rest : list A).
Arguments Reiterable {A} items.
Arguments OneShot {A} rest.

(** A complete [for ... in it] pass: the items it visits and the iterable
    afterwards. *)
Definition iterate {A : Type} (it : iterable A) : list A * iterable A :=
  match it with
  | Reiterable l => (l, Reiterable l)
  | OneShot l => (l, OneShot [])
  end.

(** 1-D arrays are lists, 2-D arrays are lists of rows, an input batch is
    the list of its (flattened) examples. *)
Abbreviation vec F := (list F) (only parsing).
Abbreviation matrix F := (list (list F)) (only parsing).
Abbreviation tensor F := (list (list F)) (only parsing).

(** A batch [(x, y, w)]: inputs, integer class labels, sample weights. *)
Abbreviation batch F := (list (list F) * list Z * list F)%type (only parsing).

(** Modelled from the spec: the dataset descriptor of
    [datasets.make_datasets] (not part of the sources), with the
    [BATCH_SIZE] field that [dataclasses.replace] overrides and the batches
    [load()] yields for a batch size, each call giving a fresh iterable. *)
Record Dataset (F : Type) : Type := {
  BATCH_SIZE : nat;
  batches_for : nat → iterable (batch F);
}.
Arguments BATCH_SIZE {F} d.
Arguments batches_for {F} d n.

Definition replace_BATCH_SIZE {F : Type} (d : Dataset F) (n : nat) : Dataset F :=
  {| BATCH_SIZE := n; batches_for := batches_for d |}.

Definition load {F : Type} (d : Dataset F) : iterable (batch F) :=
  batches_for d (BATCH_SIZE d).

(** The calls that leave the file: tensorflow's differentiation and loss,
    scikit-learn's metrics, numpy's percentile, and the model that
    [conf.make_model()] builds and lines 56-64 reduce to its logits.  The
    model is one function of the input batch, whether called as [model(x)]
    or as [model.predict(x)]; it and the tape are taken to return.  The
    metrics may raise. *)
Class Externals (F : Type) : Type := {
  (* [t.gradient(loss, x)] of the computation [loss] recorded on the tape *)
  tape_gradient : (tensor F → vec F) → tensor F → tensor F;
  (* [sparse_categorical_crossentropy(labels, outputs, from_logits=True)] *)
  criterion : list Z → matrix F → vec F;
  accuracy_score : list Z → list Z → res F;
  roc_auc_score : list Z → vec F → res F;
  roc_curve : list Z → vec F → res (vec F * vec F * vec F);
  percentile : vec F → Z → res F;
  make_model : Dataset F → tensor F → matrix F;
}.

Section Program.
Context {F : Type} {A : Arith F} {E : Externals F}.

Definition batch_x (b : batch F) : tensor F := b.1.1.
Definition batch_y (b : batch F) : list Z := b.1.2.

(** *** numpy and tensorflow array primitives *)

(** [np.max] over one row; numpy refuses a zero-size reduction. *)
Definition np_max (row : list F) : res F :=
  match row with
  | [] => Raise ValueError
  | v :: vs => Ok (foldl (λ m u, if fltb m u then u else m) v vs)
  end.

(** [a.max(1)] and [np.max(a, axis=1, keepdims=True)]. *)
Definition max1 (a : matrix F) : res (vec F) := res_mapM np_max a.

(** Index of the first maximal entry of a row, scanning from position [i]. *)
Fixpoint argmax_from (i : Z) (best : Z) (m : F) (vs : list F) : Z :=
  match vs with
  | [] => best
  | u :: vs' =>
      if fltb m u then argmax_from (i + 1) i u vs'
      else argmax_from (i + 1) best m vs'
  end.

Definition argmax_row (e : exn) (row : list F) : res Z :=
  match row with
  | [] => Raise e
  | v :: vs => Ok (argmax_from 1 0 v vs)
  end.

(** [a.argmax(1)] of numpy and [tf.argmax(a, axis=1)]: both refuse an empty
    reduction axis, each with its own exception. *)
Definition np_argmax1 (a : matrix F) : res (list Z) :=
  res_mapM (argmax_row ValueError) a.
Definition tf_argmax1 (a : matrix F) : res (list Z) :=
  res_mapM (argmax_row InvalidArgumentError) a.

(** [np.sum] over one row. *)
Definition np_sum (row : list F) : F := foldr fadd (flit 0) row.

(** [np.vstack]: needs at least one block, and rows of one width. *)
Definition same_width (a : matrix F) : bool :=
  match a with
  | [] => true
  | r :: rs => forallb (λ r', Nat.eqb (length r) (length r')) rs
  end.

Definition np_vstack (blocks : list (matrix F)) : res (matrix F) :=
  match blocks with
  | [] => Raise ValueError
  | _ => let a := concat blocks in
         if same_width a then Ok a else Raise ValueError
  end.

(** [np.hstack] of 1-D arrays: needs at least one array. *)
Definition np_hstack {B : Type} (arrays : list (list B)) : res (list B) :=
  match arrays with
  | [] => Raise ValueError
  | _ => Ok (concat arrays)
  end.

(** [a != b] on two 1-D arrays, element by element; arrays of different
    lengths do not compare. *)
Definition np_ne (a b : list Z) : res (list bool) :=
  if Nat.eqb (length a) (length b)
  then Ok (zip_with (λ u v, negb (Z.eqb u v)) a b)
  else Raise ValueError.

(** [np.argwhere(mask).ravel()]: the positions that hold [True]. *)
Fixpoint argwhere_from (i : nat) (mask : list bool) : list nat :=
  match mask with
  | [] => []
  | b :: mask' =>
      if b then i :: argwhere_from (S i) mask' else argwhere_from (S i) mask'
  end.
Definition argwhere (mask : list bool) : list nat := argwhere_from 0 mask.

(** Python indexing [a[i]] with a non-negative index. *)
Definition getitem {B : Type} (a : list B) (i : nat) : res B :=
  match a !! i with
  | Some v => Ok v
  | None => Raise IndexError
  end.

(** [outputs / temperature]. *)
Definition scale (a : matrix F) (temperature : F) : matrix F :=
  map (map (λ v, fdiv v temperature)) a.

(** Lines 42-43 of [ODIN]: subtract the row maximum, exponentiate, divide
    by the row sum. *)
Definition softmax (outputs : matrix F) : res (matrix F) :=
  m ← max1 outputs;
  let outputs := zip_with (λ row mx, map (λ v, fsub v mx) row) outputs m in
  let e := map (map fexp) outputs in
  let s := map np_sum e in
  Ok (zip_with (λ row t, map (λ v, fdiv v t) row) e s).

(** What [softmax] makes of one row whose maximum is [mx]. *)
Definition softmax_row (row : list F) (mx : F) : list F :=
  let e := map fexp (map (λ v, fsub v mx) row) in
  map (λ v, fdiv v (np_sum e)) e.

(** *** [fpr95] *)

Definition fpr95 (y_true : list Z) (y_pred : vec F) : res F :=
  '(fpr, tpr, thresholds) ← roc_curve y_true y_pred;
  ix ← getitem (argwhere ((λ t, fleb (flit (95 # 100)%Q) t) <$> tpr)) 0;
  getitem fpr ix.

(** The generalisation of [fpr95] to an arbitrary true-positive-rate
    target; [fpr95] is its value at 0.95. *)
Definition fpr_at_tpr (target : F) (y_true : list Z) (y_pred : vec F) : res F :=
  '(fpr, tpr, thresholds) ← roc_curve y_true y_pred;
  ix ← getitem (argwhere ((λ t, fleb target t) <$> tpr)) 0;
  getitem fpr ix.

(** *** [ODIN] *)

(** The body of the loop, for the inputs [x] of one batch. *)
Definition ODIN_batch (model : tensor F → matrix F) (temperature epsilon : F)
    (x : tensor F) : res (matrix F) :=
  let outputs := model x in
  maxIndexTemp ← tf_argmax1 outputs;
  let labels := maxIndexTemp in
  let loss := λ x', criterion labels (scale (model x') temperature) in
  let gradients := tape_gradient loss x in
  let gradients := map (map fsign) gradients in
  let tempInputs :=
    zip_with (zip_with (λ v g, fsub v (fmul epsilon g))) x gradients in
  let outputs := model tempInputs in
  let outputs := scale outputs temperature in
  softmax outputs.

(** The scorer walks the dataset once (the progress bar only forwards the
    batches); it returns the stacked confidences, or the exception raised,
    and the iterable as a complete pass leaves it. *)
Definition ODIN (ds : iterable (batch F)) (model : tensor F → matrix F)
    (temperature epsilon : F) : res (matrix F) * iterable (batch F) :=
  let '(batches, ds) := iterate ds in
  (ots ← res_mapM (λ b, ODIN_batch model temperature epsilon (batch_x b))
         batches;
   np_vstack ots,
   ds).




(** *** [odin_results] *)

Definition sentinel : Z := -123456789.

(** Lines 52-110.  [ds] and [ood] are first rebound to batch size 16, the
    model is built for [ds], both datasets are loaded, and the metrics are
    stored in the order of the source.  Console output is not modelled. *)
Definition odin_results (ds ood : Dataset F) : res (gmap string (pyval F)) :=
  let ds := replace_BATCH_SIZE ds 16 in
  let ood := replace_BATCH_SIZE ood 16 in
  let model := make_model ds in
  let result_collection : gmap string (pyval F) := ∅ in
  let ds := load ds in
  let ood := load ood in
  let '(pred_ds, ds) := ODIN ds model (flit 2) (flit (3 # 10)%Q) in
  pred_ds ← pred_ds;
  let '(pred_ood, ood) := ODIN ood model (flit 2) (flit (3 # 10)%Q) in
  pred_ood ← pred_ood;
  let '(batches, ds) := iterate ds in
  y_true ← np_hstack (batch_y <$> batches);
  predicted ← np_argmax1 pred_ds;
  accuracy ← accuracy_score y_true predicted;
  let class_error := fsub (flit 1) accuracy in
  let result_collection :=
    <["classification error" := PyFloat class_error]> result_collection in
  pred ← np_vstack [pred_ood; pred_ds];
  let ood_labels :=
    replicate (length pred_ood) 0%Z ++ replicate (length pred_ds) 1%Z in
  confidence ← max1 pred_ds;
  threshold ← percentile confidence 5;
  let result_collection :=
    <["threshold_ood" := PyFloat threshold]> result_collection in
  let all_pred := (λ row, Z.b2z (existsb (fltb threshold) row)) <$> pred in
  accuracy ← accuracy_score ood_labels all_pred;
  let ood_error := fsub (flit 1) accuracy in
  let result_collection :=
    <["OOD error" := PyFloat ood_error]> result_collection in
  p ← max1 pred;
  ood_auc ← roc_auc_score ood_labels p;
  let result_collection :=
    <["OOD AUC" := PyFloat ood_auc]> result_collection in
  predicted ← np_argmax1 pred_ds;
  erroneous_prediction ← np_ne y_true predicted;
  anomaly_score ← max1 pred_ds;
  auc ← match roc_auc_score (Z.b2z <$> erroneous_prediction) anomaly_score with
        | Ok auc => Ok (PyFloat auc)
        | Raise ValueError => Ok (PyInt sentinel)
        | Raise e => Raise e
        end;
  let result_collection :=
    <["AUC anomaly score and misclassification" := auc]> result_collection in
  fpr ← fpr95 ood_labels p;
  let result_collection :=
    <["FPR at 95% TPR" := PyFloat fpr]> result_collection in
  Ok result_collection.

(** The keys the source stores, and the five the specification names. *)
Definition stored_keys : gset string :=
  {[ "classification error"; "threshold_ood"; "OOD error"; "OOD AUC";
     "AUC anomaly score and misclassification"; "FPR at 95% TPR" ]}.
Definition named_keys : gset string :=
  {[ "classification error"; "OOD error"; "OOD AUC";
     "AUC anomaly score and misclassification"; "FPR at 95% TPR" ]}.

End Program.

(** ** Two implementations of the numbers *)

(** Exact real arithmetic. *)
Definition Rltb (x y : R) : bool := if Rlt_dec x y then true else false.
Definition Rleb (x y : R) : bool := if Rle_dec x y then true else false.
Definition Rsign (x : R) : R :=
  if Rlt_dec 0 x then 1%R else if Rlt_dec x 0 then (-1)%R else 0%R.

#[global] Instance R_arith : Arith R := {|
  flit := Q2R;
  fadd := Rplus;
  fsub := Rminus;
  fmul := Rmult;
  fdiv := Rdiv;
  fexp := exp;
  fsign := Rsign;
  fltb := Rltb;
  fleb := Rleb;
|}.

(** Exact rational arithmetic on reduced fractions, which evaluates.  The
    exponential has no rational values; [Qexp] is the rational function
    [1 + x + x²/2] for [x > 0] and its reciprocal at [-x] otherwise, positive
    everywhere and [1] at [0]. *)
Definition Qexp (x : Q) : Q :=
  if Qle_bool x 0 then Qred (1 / (1 - x + x * x / 2))%Q
  else Qred (1 + x + x * x / 2)%Q.
Definition Qsign (x : Q) : Q := inject_Z (Z.sgn (Qnum x)).

#[global] Instance Q_arith : Arith Q := {|
  flit := Qred;
  fadd := λ x y, Qred (x + y)%Q;
  fsub := λ x y, Qred (x - y)%Q;
  fmul := λ x y, Qred (x * y)%Q;
  fdiv := λ x y, Qred (x / y)%Q;
  fexp := Qexp;
  fsign := Qsign;
  fltb := λ x y, negb (Qle_bool y x);
  fleb := Qle_bool;
|}.





(** ** Reference implementations of the external calls

    Textbook versions of the metrics, written against [Arith], so that the
    program can be run on concrete data.  The theorems below do not depend
    on them: they quantify over every [Externals]. *)
Module Ref.
Section Ref.
Context {F : Type} {A : Arith F}.

Definition of_nat (n : nat) : F := flit (inject_Z (Z.of_nat n)).

(** Fraction of positions where prediction and label agree. *)
Definition accuracy_score (y_true y_pred : list Z) : res F :=
  if Nat.eqb (length y_true) (length y_pred)
  then Ok (fdiv (of_nat (length (filter (λ p, p.1 = p.2) (zip y_true y_pred))))
                (of_nat (length y_true)))
  else Raise ValueError.

Definition scores_of (keep : Z → bool) (y_true : list Z) (y_score : vec F) : vec F :=
  snd <$> filter (λ p, keep p.1 = true) (zip y_true y_score).
Definition positives := scores_of (Z.eqb 1).
Definition negatives := scores_of (λ y, negb (Z.eqb 1 y)).

(** Area under the ROC curve as the probability that a positive example
    outscores a negative one, ties counting one half; undefined when one
    of the two classes is absent. *)
Definition roc_auc_score (y_true : list Z) (y_score : vec F) : res F :=
  let pos := positives y_true y_score in
  let neg := negatives y_true y_score in
  match pos, neg with
  | [], _ | _, [] => Raise ValueError
  | _, _ =>
      let pair_score (p n : F) : Q :=
        (if fltb n p then 1 else if fltb p n then 0 else 1 # 2)%Q in
      let wins := foldr Qplus 0%Q (p ← pos; n ← neg; [pair_score p n]) in
      Ok (fdiv (flit wins) (of_nat (length pos * length neg)))
  end.

(** Insertion into a list kept in decreasing order without repetition. *)
Fixpoint insert_desc (v : F) (l : vec F) : vec F :=
  match l with
  | [] => [v]
  | u :: l' =>
      if fltb u v then v :: l
      else if fltb v u then u :: insert_desc v l'
      else l
  end.

Definition count_ge (t : F) (l : vec F) : nat :=
  length (filter (λ s, fltb s t = false) l).

(** The ROC curve: the origin, then one point per distinct score taken as
    threshold, in decreasing order of the threshold. *)
Definition roc_curve (y_true : list Z) (y_score : vec F)
    : res (vec F * vec F * vec F) :=
  let pos := positives y_true y_score in
  let neg := negatives y_true y_score in
  let thresholds := foldr insert_desc [] y_score in
  let rate (l : vec F) (t : F) := fdiv (of_nat (count_ge t l)) (of_nat (length l)) in
  match thresholds with
  | [] => Raise ValueError
  | t0 :: _ =>
      Ok (flit 0 :: (rate neg <$> thresholds),
          flit 0 :: (rate pos <$> thresholds),
          fadd t0 (flit 1) :: thresholds)
  end.

(** Percentile with linear interpolation between the two nearest ranks. *)
Fixpoint insert_asc (v : F) (l : vec F) : vec F :=
  match l with
  | [] => [v]
  | u :: l' => if fltb v u then v :: l else u :: insert_asc v l'
  end.

Definition percentile (a : vec F) (q : Z) : res F :=
  let sorted := foldr insert_asc [] a in
  let pos : Q := (inject_Z (Z.of_nat (length a - 1)) * inject_Z q / 100)%Q in
  let lo := Z.to_nat (Qfloor pos) in
  let frac : Q := (pos - inject_Z (Qfloor pos))%Q in
  match sorted !! lo, sorted !! S lo with
  | Some u, Some v => Ok (fadd u (fmul (flit frac) (fsub v u)))
  | Some u, None => Ok u
  | None, _ => Raise IndexError
  end.

(** A classifier with two classes that is constant on each side of the
    origin of the first feature, the derivative the tape finds for it
    (zero everywhere), and a loss whose value only the tape would read. *)
Definition step_model (x : tensor F) : matrix F :=
  (λ example,
     match example with
     | v :: _ => if fltb (flit 0) v then [flit 1; flit 0] else [flit 0; flit 0]
     | [] => [flit 0; flit 0]
     end) <$> x.

Definition zero_gradient (loss : tensor F → vec F) (x : tensor F) : tensor F :=
  map (map (λ _, flit 0)) x.

Definition zero_loss (labels : list Z) (outputs : matrix F) : vec F :=
  (λ _, flit 0) <$> outputs.

Definition externals : Externals F :=
  Build_Externals F zero_gradient zero_loss
    accuracy_score roc_auc_score roc_curve percentile (λ _, step_model).

End Ref.
End Ref.

(** Two small datasets: positive first features in distribution, negative
    ones out of distribution. *)
Definition ds_batches : list (batch Q) :=
  [ ([[1]; [2]]%Q, [0; 0]%Z, [1; 1]%Q);
    ([[3]]%Q, [1]%Z, [1]%Q) ].
Definition ood_batches : list (batch Q) :=
  [ ([[-1]; [-2]]%Q, [5; 5]%Z, [1; 1]%Q) ].

Definition ds_reiterable : Dataset Q :=
  {| BATCH_SIZE := 32; batches_for := λ _, Reiterable ds_batches |}.
Definition ds_oneshot : Dataset Q :=
  {| BATCH_SIZE := 32; batches_for := λ _, OneShot ds_batches |}.
Definition ood_reiterable : Dataset Q :=
  {| BATCH_SIZE := 32; batches_for := λ _, Reiterable ood_batches |}.

(** The same inputs with labels that all agree with the model. *)
Definition ds_correct_batches : list (batch Q) :=
  [ ([[1]; [2]]%Q, [0; 0]%Z, [1; 1]%Q);
    ([[3]]%Q, [0]%Z, [1]%Q) ].
Definition ds_correct : Dataset Q :=
  {| BATCH_SIZE := 32; batches_for := λ _, Reiterable ds_correct_batches |}.

(** The confidences of the two sample datasets. *)
Definition sample_pred_ds : matrix Q :=
  [[13 # 21; 8 # 21]; [13 # 21; 8 # 21]; [13 # 21; 8 # 21]]%Q.
Definition sample_pred_ood : matrix Q := [[1 # 2; 1 # 2]; [1 # 2; 1 # 2]]%Q.

(** What [odin_results] returns for [ds_reiterable] and [ood_reiterable]. *)
Definition sample_result : gmap string (pyval Q) :=
  <["FPR at 95% TPR" := PyFloat 0%Q]>
  (<["AUC anomaly score and misclassification" := PyFloat (1 # 2)%Q]>
  (<["OOD AUC" := PyFloat 1%Q]>
  (<["OOD error" := PyFloat (3 # 5)%Q]>
  (<["threshold_ood" := PyFloat (13 # 21)%Q]>
  (<["classification error" := PyFloat (1 # 3)%Q]> ∅))))).


(** A batch of one example over the reals. *)
Definition real_batches : list (batch R) := [ ([[1; 2]]%R, [0]%Z, [1]%R) ].





(** The softmax as it is written on paper, without the shift by the row
    maximum. *)
Definition plain_softmax_row (row : list R) : list R :=
  map (λ v, exp v / foldr Rplus 0 (map exp row))%R row.

(** Datasets that yield no batch. *)
Definition ds_empty : Dataset Q :=
  {| BATCH_SIZE := 32; batches_for := λ _, Reiterable [] |}.

(** A second out-of-distribution dataset, and what [odin_results] returns
    for [ds_reiterable] with it and for [ds_correct] with [ood_reiterable]. *)
Definition ood_other : Dataset Q :=
  {| BATCH_SIZE := 8; batches_for := λ _, OneShot [ ([[-5]]%Q, [7]%Z, [1]%Q) ] |}.

Definition sample_result_other : gmap string (pyval Q) :=
  <["FPR at 95% TPR" := PyFloat 0%Q]>
  (<["AUC anomaly score and misclassification" := PyFloat (1 # 2)%Q]>
  (<["OOD AUC" := PyFloat 1%Q]>
  (<["OOD error" := PyFloat (3 # 4)%Q]>
  (<["threshold_ood" := PyFloat (13 # 21)%Q]>
  (<["classification error" := PyFloat (1 # 3)%Q]> ∅))))).

Definition sample_result_correct : gmap string (pyval Q) :=
  <["FPR at 95% TPR" := PyFloat 0%Q]>
  (<["AUC anomaly score and misclassification" := PyInt (-123456789)]>
  (<["OOD AUC" := PyFloat 1%Q]>
  (<["OOD error" := PyFloat (3 # 5)%Q]>
  (<["threshold_ood" := PyFloat (13 # 21)%Q]>
  (<["classification error" := PyFloat 0%Q]> ∅))))).

(** The reference calls, with an AUC that reports a single class by
    [IndexError] instead of [ValueError]. *)
Definition auc_index_error (y_true : list Z) (y_score : vec Q) : res Q :=
  match Ref.roc_auc_score y_true y_score with
  | Raise ValueError => Raise IndexError
  | r => r
  end.
Definition externals_index_error : Externals Q :=
  Build_Externals Q Ref.zero_gradient Ref.zero_loss
    Ref.accuracy_score auc_index_error Ref.roc_curve Ref.percentile
    (λ _, Ref.step_model).


(** ** Reasoning about results *)

Lemma bind_Ok {A B : Type} (m : res A) (f : A → res B) (b : B) :
  m ≫= f = Ok b ↔ ∃ a, m = Ok a ∧ f a = Ok b.
Proof.
  destruct m as [a|e]; simpl.
  - split; [eauto | intros (a' & [= <-] & Hf); exact Hf].
  - split; [discriminate | intros (a' & [=] & _)].
Qed.

Lemma bind_ret {A B : Type} (a : A) (f : A → res B) : Ok a ≫= f = f a.
Proof. reflexivity. Qed.

Lemma res_mapM_Ok {A B : Type} (f : A → res B) (l : list A) (bs : list B) :
  res_mapM f l = Ok bs ↔ Forall2 (λ a b, f a = Ok b) l bs.
Proof.
  revert bs. induction l as [|a l IH]; intros bs; simpl.
  - split; [intros [= <-]; constructor | by inversion 1].
  - rewrite bind_Ok. split.
    + intros (b & Hb & Hrest). apply bind_Ok in Hrest as (bs' & Hbs & [= <-]).
      constructor; [done | by apply IH].
    + inversion 1 as [|? b ? bs' Hb Hbs]; subst. exists b. split; [done|].
      apply bind_Ok. exists bs'. split; [by apply IH | done].
Qed.

Lemma res_mapM_fmap {A B C : Type} (g : A → B) (f : B → res C) (l : list A) :
  res_mapM (λ a, f (g a)) l = res_mapM f (g <$> l).
Proof. induction l as [|a l IH]; simpl; [done | by rewrite IH]. Qed.

(** ** The first position of a mask *)

Lemma argwhere_from_lookup (mask : list bool) (k i : nat) (rest : list nat) :
  argwhere_from k mask = i :: rest →
  k ≤ i ∧ mask !! (i - k) = Some true
  ∧ ∀ j, j < i - k → mask !! j = Some false.
Proof.
  revert k. induction mask as [|b mask IH]; intros k; simpl; [done|].
  destruct b.
  - intros [= <- _]. rewrite Nat.sub_diag. split; [lia|]. split; [done|]. lia.
  - intros Hrec. apply IH in Hrec as (Hle & Hhit & Hbefore).
    replace (i - k) with (S (i - S k)) by lia. split; [lia|]. split; [done|].
    intros [|j] Hj; simpl; [done|]. apply Hbefore. lia.
Qed.

Lemma argwhere_from_first (mask : list bool) (k i : nat) :
  mask !! i = Some true → (∀ j, j < i → mask !! j = Some false) →
  ∃ rest, argwhere_from k mask = (k + i) :: rest.
Proof.
  revert k i. induction mask as [|b mask IH]; intros k i Hhit Hbefore; [done|].
  destruct i as [|i]; simpl in *.
  - injection Hhit as ->. rewrite Nat.add_0_r. eauto.
  - specialize (Hbefore 0 ltac:(lia)) as Hb. injection Hb as ->.
    destruct (IH (S k) i Hhit) as [rest Hrest].
    + intros j Hj. apply (Hbefore (S j)). lia.
    + exists rest. rewrite Hrest. f_equal. lia.
Qed.

Lemma argwhere_from_none (mask : list bool) (k : nat) :
  Forall (λ b, b = false) mask → argwhere_from k mask = [].
Proof.
  intros Hall. revert k. induction Hall as [|b mask -> _ IH]; intros k; simpl; auto.
Qed.

Lemma first_true_le (mask : list bool) (i : nat) :
  mask !! i = Some true →
  ∃ i1, i1 ≤ i ∧ mask !! i1 = Some true ∧ ∀ j, j < i1 → mask !! j = Some false.
Proof.
  revert i. induction mask as [|b mask IH]; intros i Hi; [done|].
  destruct b.
  - exists 0. split; [lia|]. split; [done|]. lia.
  - destruct i as [|i]; [done|]. simpl in Hi.
    destruct (IH i Hi) as (i1 & Hle & Hhit & Hbefore).
    exists (S i1). split; [lia|]. split; [done|].
    intros [|j] Hj; simpl; [done|]. apply Hbefore. lia.
Qed.

Section Scorer.
Context {F : Type} {A : Arith F} {E : Externals F}.

Lemma fpr95_is_fpr_at_tpr (y_true : list Z) (y_pred : vec F) :
  fpr95 y_true y_pred = fpr_at_tpr (flit (95 # 100)%Q) y_true y_pred.
Proof. reflexivity. Qed.

Lemma fpr_at_tpr_Ok (target : F) (y_true : list Z) (y_pred fpr tpr thr : vec F)
    (v : F) :
  roc_curve y_true y_pred = Ok (fpr, tpr, thr) →
  fpr_at_tpr target y_true y_pred = Ok v ↔
  ∃ i t, tpr !! i = Some t ∧ fleb target t = true
    ∧ (∀ j u, j < i → tpr !! j = Some u → fleb target u = false)
    ∧ fpr !! i = Some v.
Proof.
  intros Hroc. unfold fpr_at_tpr. rewrite Hroc. simpl.
  unfold getitem at 1, argwhere. split.
  - destruct (argwhere_from 0 _) as [|i rest] eqn:Hwhere; simpl; [done|].
    apply argwhere_from_lookup in Hwhere as (_ & Hhit & Hbefore).
    rewrite Nat.sub_0_r in Hhit, Hbefore.
    rewrite list_lookup_fmap in Hhit.
    destruct (tpr !! i) as [t|] eqn:Ht; simplify_eq/=.
    unfold getitem. destruct (fpr !! i) as [w|] eqn:Hw; [|done].
    intros [= ->]. exists i, t. repeat split; try done.
    intros j u Hj Hu. specialize (Hbefore j Hj).
    rewrite list_lookup_fmap, Hu in Hbefore. by simplify_eq/=.
  - intros (i & t & Ht & Hle & Hbefore & Hv).
    destruct (argwhere_from_first ((λ t, fleb target t) <$> tpr) 0 i) as [rest ->].
    + by rewrite list_lookup_fmap, Ht; simpl; rewrite Hle.
    + intros j Hj. rewrite list_lookup_fmap.
      destruct (tpr !! j) as [u|] eqn:Hu; simpl.
      * by rewrite (Hbefore j u Hj Hu).
      * apply lookup_ge_None in Hu. apply lookup_lt_Some in Ht. lia.
    + simpl. unfold getitem. by rewrite Hv.
Qed.

(** C3: [fpr95] returns the false-positive rate of the first point of the
    ROC curve, in index order, whose true-positive rate is at least 0.95;
    when no point of the curve reaches 0.95 it raises [IndexError] and has
    no fallback value. *)
Theorem fpr95_first_point_or_error (y_true : list Z) (y_pred fpr tpr thr : vec F) :
  roc_curve y_true y_pred = Ok (fpr, tpr, thr) →
  (∀ i t v,
     tpr !! i = Some t → fleb (flit (95 # 100)%Q) t = true →
     (∀ j u, j < i → tpr !! j = Some u → fleb (flit (95 # 100)%Q) u = false) →
     fpr !! i = Some v →
     fpr95 y_true y_pred = Ok v)
  ∧ (Forall (λ t, fleb (flit (95 # 100)%Q) t = false) tpr →
     fpr95 y_true y_pred = Raise IndexError).
Proof.
  intros Hroc. split.
  - intros i t v Ht Hle Hbefore Hv. rewrite fpr95_is_fpr_at_tpr.
    apply (fpr_at_tpr_Ok _ _ _ _ _ _ _ Hroc). eauto 10.
  - intros Hnone. unfold fpr95. rewrite Hroc. simpl.
    unfold argwhere. rewrite argwhere_from_none; [done|].
    by apply Forall_fmap.
Qed.

(** C8: for one ROC curve whose false-positive rates do not decrease along
    the curve, and a transitive order, raising the true-positive-rate target
    cannot lower the reported false-positive rate: whenever the higher
    target yields a value, the lower one yields a value that is no larger. *)
Theorem fpr_at_tpr_monotone (y_true : list Z) (y_pred fpr tpr thr : vec F)
    (t1 t2 v2 : F) :
  (∀ a b c : F, fleb a b = true → fleb b c = true → fleb a c = true) →
  roc_curve y_true y_pred = Ok (fpr, tpr, thr) →
  (∀ i j u v, i ≤ j → fpr !! i = Some u → fpr !! j = Some v → fleb u v = true) →
  fleb t1 t2 = true →
  fpr_at_tpr t2 y_true y_pred = Ok v2 →
  ∃ v1, fpr_at_tpr t1 y_true y_pred = Ok v1 ∧ fleb v1 v2 = true.
Proof.
  intros Htrans Hroc Hmono Ht12 H2.
  apply (fpr_at_tpr_Ok _ _ _ _ _ _ _ Hroc) in H2
    as (i2 & u2 & Hu2 & Hreach2 & _ & Hv2).
  (* the lower target is met at [i2], so it is first met at some [i1 ≤ i2] *)
  assert (Hmet : fleb t1 u2 = true) by eauto.
  assert (∃ i1 u1, i1 ≤ i2 ∧ tpr !! i1 = Some u1 ∧ fleb t1 u1 = true
            ∧ ∀ j u, j < i1 → tpr !! j = Some u → fleb t1 u = false)
    as (i1 & u1 & Hi1 & Hu1 & Hreach1 & Hfirst1).
  { destruct (first_true_le ((λ t, fleb t1 t) <$> tpr) i2) as (i1 & Hi1 & Hhit & Hbefore).
    { by rewrite list_lookup_fmap, Hu2; simpl; rewrite Hmet. }
    rewrite list_lookup_fmap in Hhit.
    destruct (tpr !! i1) as [u1|] eqn:Hu1; simplify_eq/=.
    exists i1, u1. repeat split; try done.
    intros j u Hj Hu. specialize (Hbefore j Hj).
    rewrite list_lookup_fmap, Hu in Hbefore. by simplify_eq/=. }
  assert (is_Some (fpr !! i1)) as [v1 Hv1].
  { apply lookup_lt_is_Some. apply lookup_lt_Some in Hv2. lia. }
  exists v1. split; [|by eapply Hmono].
  apply (fpr_at_tpr_Ok _ _ _ _ _ _ _ Hroc). eauto 10.
Qed.

(** *** The softmax, row by row *)

Lemma softmax_cons (row : list F) (a : matrix F) :
  softmax (row :: a) =
  (mx ← np_max row; s ← softmax a; Ok (softmax_row row mx :: s)).
Proof.
  unfold softmax, max1. simpl. destruct (np_max row) as [mx|e]; simpl; [|done].
  by destruct (res_mapM np_max a).
Qed.

Lemma softmax_Ok (a s : matrix F) :
  softmax a = Ok s ↔
  Forall2 (λ row srow, ∃ mx, np_max row = Ok mx ∧ srow = softmax_row row mx) a s.
Proof.
  revert s. induction a as [|row a IH]; intros s.
  - split; [intros [= <-]; constructor | by inversion 1].
  - rewrite softmax_cons, bind_Ok. split.
    + intros (mx & Hmx & Hrest). apply bind_Ok in Hrest as (s' & Hs' & [= <-]).
      constructor; [eauto | by apply IH].
    + inversion 1 as [|? srow ? s' (mx & Hmx & ->) Hs']; subst.
      exists mx. split; [done|]. apply bind_Ok. exists s'. split; [by apply IH | done].
Qed.

Lemma np_max_Ok (row : list F) (mx : F) : np_max row = Ok mx → row ≠ [].
Proof. by destruct row. Qed.

Lemma np_max_returns (row : list F) : row ≠ [] → ∃ mx, np_max row = Ok mx.
Proof. destruct row; [done | simpl; eauto]. Qed.

Lemma softmax_row_length (row : list F) (mx : F) :
  length (softmax_row row mx) = length row.
Proof. unfold softmax_row. by rewrite !length_map. Qed.

Lemma softmax_returns (a : matrix F) :
  Forall (λ row, row ≠ []) a → ∃ s, softmax a = Ok s.
Proof.
  induction 1 as [|row a Hrow _ [s Hs]]; [by exists []|].
  destruct (np_max_returns row Hrow) as [mx Hmx].
  exists (softmax_row row mx :: s). by rewrite softmax_cons, Hmx, bind_ret, Hs.
Qed.

Lemma softmax_shape (a s : matrix F) :
  softmax a = Ok s →
  Forall2 (λ row srow, row ≠ [] ∧ length srow = length row) a s.
Proof.
  rewrite softmax_Ok. intros Hrows. eapply Forall2_impl; [exact Hrows|].
  intros row srow (mx & Hmx & ->).
  split; [by eapply np_max_Ok | apply softmax_row_length].
Qed.

Lemma argmax1_returns (e : exn) (a : matrix F) :
  Forall (λ row, row ≠ []) a → ∃ l, res_mapM (argmax_row e) a = Ok l.
Proof.
  induction 1 as [|row a Hrow _ [l Hl]]; [by exists []|].
  destruct row as [|v vs]; [done|]. simpl. rewrite Hl. simpl. eauto.
Qed.

Lemma scale_shape (a : matrix F) (temperature : F) :
  Forall2 (λ row srow, length srow = length row) a (scale a temperature).
Proof.
  unfold scale. induction a; constructor; [by rewrite length_map | done].
Qed.

Lemma scale_nonempty (a : matrix F) (temperature : F) :
  Forall (λ row, row ≠ []) (scale a temperature) ↔ Forall (λ row, row ≠ []) a.
Proof.
  unfold scale. rewrite Forall_fmap. apply Forall_proper; [|done].
  intros row. simpl. by destruct row.
Qed.

(** *** The scorer returns *)

Lemma res_mapM_returns {B C : Type} (f : B → res C) (l : list B) :
  Forall (λ b, ∃ c, f b = Ok c) l → ∃ cs, res_mapM f l = Ok cs.
Proof.
  induction 1 as [|b l [c Hc] _ [cs Hcs]]; [by exists []|].
  exists (c :: cs). simpl. by rewrite Hc, bind_ret, Hcs.
Qed.

Lemma same_width_uniform (a : matrix F) (n : nat) :
  Forall (λ row, length row = n) a → same_width a = true.
Proof.
  destruct 1 as [|row a Hrow Ha]; [done|]. simpl.
  apply forallb_forall. intros row' Hin. apply Nat.eqb_eq.
  rewrite Forall_forall in Ha. rewrite Hrow. symmetry. apply Ha.
  by apply list_elem_of_In.
Qed.

Lemma ODIN_batch_returns (model : tensor F → matrix F) (temperature epsilon : F)
    (x : tensor F) (k : nat) :
  (∀ x, Forall (λ row, length row = S k) (model x)) →
  ∃ m, ODIN_batch model temperature epsilon x = Ok m
       ∧ Forall (λ row, length row = S k) m.
Proof.
  intros Hclasses. unfold ODIN_batch.
  assert (Hne : ∀ x, Forall (λ row : list F, row ≠ []) (model x)).
  { intros x'. eapply Forall_impl; [apply Hclasses|]. by intros [|]. }
  destruct (argmax1_returns InvalidArgumentError (model x) (Hne x)) as [labels Hlabels].
  unfold tf_argmax1. rewrite Hlabels, bind_ret.
  set (tempInputs := zip_with _ x _).
  destruct (softmax_returns (scale (model tempInputs) temperature)) as [m Hm].
  { by apply scale_nonempty. }
  exists m. split; [done|].
  apply softmax_shape in Hm.
  pose proof (scale_shape (model tempInputs) temperature) as Hscale.
  specialize (Hclasses tempInputs).
  revert Hclasses Hscale Hm. generalize (model tempInputs) (scale (model tempInputs) temperature).
  intros a b Ha Hab. revert m. induction Hab as [|r r' a b Hr _ IH]; intros m Hm.
  - inversion Hm. constructor.
  - inversion Hm as [|? srow ? m' [_ Hsrow] Hm']; subst. inversion Ha; subst.
    constructor; [congruence | by apply IH].
Qed.

(** On a dataset with at least one batch, and for a model with a fixed
    positive number of classes, the scorer returns a matrix. *)
Lemma ODIN_returns (ds : iterable (batch F)) (model : tensor F → matrix F)
    (temperature epsilon : F) (k : nat) :
  (iterate ds).1 ≠ [] →
  (∀ x, Forall (λ row, length row = S k) (model x)) →
  ∃ M, (ODIN ds model temperature epsilon).1 = Ok M.
Proof.
  intros Hbatches Hclasses. unfold ODIN.
  destruct (iterate ds) as [batches ds']. simpl in *.
  destruct (res_mapM_returns
    (λ b, ODIN_batch model temperature epsilon (batch_x b)) batches) as [ots Hots].
  { apply Forall_true. intros b.
    destruct (ODIN_batch_returns model temperature epsilon (batch_x b) k Hclasses)
      as (m & Hm & _). eauto. }
  rewrite Hots, bind_ret. unfold np_vstack.
  apply res_mapM_Ok in Hots.
  destruct ots as [|m ots]; [by inversion Hots; subst|].
  rewrite (same_width_uniform _ (S k)); [eauto|].
  apply Forall_concat.
  eapply Forall2_Forall_r; [exact Hots|]. apply Forall_true. intros b m' Hm'.
  destruct (ODIN_batch_returns model temperature epsilon (batch_x b) k Hclasses)
    as (m'' & Hm'' & Hwidth). congruence.
Qed.

(** *** Rows of the confidence matrix *)



(** C9: on a dataset that yields no batch the scorer returns no matrix, not
    even an empty one: stacking the empty list of batch outputs raises
    [ValueError]. *)
Theorem ODIN_no_batches_raises (ds : iterable (batch F))
    (model : tensor F → matrix F) (temperature epsilon : F) :
  (iterate ds).1 = [] →
  (ODIN ds model temperature epsilon).1 = Raise ValueError.
Proof.
  unfold ODIN. destruct (iterate ds) as [batches ds']. simpl. by intros ->.
Qed.

(** C10: the scorer reads the inputs of the batches only: two datasets that
    yield the same inputs in the same order give the same outcome, whatever
    their labels and weights. *)
Theorem ODIN_reads_inputs_only (ds1 ds2 : iterable (batch F))
    (model : tensor F → matrix F) (temperature epsilon : F) :
  batch_x <$> (iterate ds1).1 = batch_x <$> (iterate ds2).1 →
  (ODIN ds1 model temperature epsilon).1 = (ODIN ds2 model temperature epsilon).1.
Proof.
  unfold ODIN.
  destruct (iterate ds1) as [batches1 ds1'], (iterate ds2) as [batches2 ds2'].
  simpl. intros Hx.
  by rewrite !(res_mapM_fmap batch_x (ODIN_batch model temperature epsilon)), Hx.
Qed.

End Scorer.

(** ** The aggregator *)

(** Splits a successful run of [odin_results] into its steps. *)
Ltac run_inv H :=
  unfold odin_results in H; cbv zeta in H;
  repeat match type of H with
    | (let '(_, _) := ?t in _) = _ =>
        let Ht := fresh "Hpass" in destruct t as [? ?] eqn:Ht
    | _ ≫= _ = Ok _ =>
        let Hs := fresh "Hstep" in apply bind_Ok in H as (? & Hs & H)
    end.

Section Aggregator.
Context {F : Type} {A : Arith F} {E : Externals F}.

(** C1, as the code has it: a successful run returns a mapping with exactly
    six keys, the five named metrics and ['threshold_ood']. *)
Theorem odin_results_keys (ds ood : Dataset F) (r : gmap string (pyval F)) :
  odin_results ds ood = Ok r →
  dom r = stored_keys ∧ stored_keys = named_keys ∪ {[ "threshold_ood" ]}.
Proof.
  intros Hrun. run_inv Hrun. injection Hrun as <-. split.
  - rewrite !dom_insert_L, dom_empty_L. unfold stored_keys. set_solver.
  - unfold stored_keys, named_keys. set_solver.
Qed.

(** After a pass, a re-iterable dataset is unchanged and a one-shot one is
    used up. *)
Lemma ODIN_leaves (ds : iterable (batch F)) (model : tensor F → matrix F)
    (temperature epsilon : F) :
  (ODIN ds model temperature epsilon).2 = (iterate ds).2.
Proof. unfold ODIN. by destruct (iterate ds). Qed.

Lemma np_hstack_Ok {B : Type} (arrays : list (list B)) (a : list B) :
  np_hstack arrays = Ok a → arrays ≠ [] ∧ a = concat arrays.
Proof. destruct arrays; [done|]. by intros [= <-]. Qed.

(** A dataset that can be walked only once never gets through
    [odin_results]: the pass that collects the labels finds no batch. *)
Lemma odin_results_oneshot_raises (ds ood : Dataset F) (items : list (batch F)) :
  batches_for ds 16 = OneShot items → ∃ e, odin_results ds ood = Raise e.
Proof.
  intros Hload. destruct (odin_results ds ood) as [r|e] eqn:Hrun; [|eauto].
  run_inv Hrun.
  pose proof (ODIN_leaves (load (replace_BATCH_SIZE ds 16))
    (make_model (replace_BATCH_SIZE ds 16)) (flit 2) (flit (3 # 10)%Q)) as Hleft.
  rewrite Hpass in Hleft. unfold load in Hleft. simpl in Hleft.
  rewrite Hleft, Hload in Hpass1. simpl in Hpass1. by simplify_eq/=.
Qed.

(** C2, as the code has it: when the loaded in-distribution dataset can be
    walked again from its first batch, a successful run takes as ground
    truth the labels of all its batches, concatenated in iteration order,
    and stores one minus the accuracy of the row-wise argmax of [pred_ds]
    against them under ['classification error']. *)
Theorem odin_results_classification_error (ds ood : Dataset F)
    (items : list (batch F)) (r : gmap string (pyval F)) :
  batches_for ds 16 = Reiterable items →
  odin_results ds ood = Ok r →
  ∃ pred_ds predicted accuracy,
    (ODIN (Reiterable items) (make_model (replace_BATCH_SIZE ds 16))
       (flit 2) (flit (3 # 10)%Q)).1 = Ok pred_ds
    ∧ np_argmax1 pred_ds = Ok predicted
    ∧ accuracy_score (concat (batch_y <$> items)) predicted = Ok accuracy
    ∧ r !! "classification error" = Some (PyFloat (fsub (flit 1) accuracy)).
Proof.
  intros Hload Hrun. run_inv Hrun. injection Hrun as <-.
  unfold load in Hpass. simpl in Hpass. rewrite Hload in Hpass.
  pose proof (ODIN_leaves (Reiterable items)
    (make_model (replace_BATCH_SIZE ds 16)) (flit 2) (flit (3 # 10)%Q)) as Hleft.
  rewrite Hpass in Hleft. simpl in Hleft. subst.
  simpl in Hpass1. injection Hpass1 as <- <-.
  apply np_hstack_Ok in Hstep1 as [_ ->].
  exists x, x2, x3. rewrite Hpass. repeat split; done.
Qed.

(** C4: when every step before it has succeeded and the AUC of anomaly
    score against misclassification is undefined, that is, the metric
    raises [ValueError], [odin_results] does not fail on it: as soon as the
    last metric, [fpr95], has a value, the run returns the mapping with the
    integer -123456789 under ['AUC anomaly score and misclassification'] and
    the other metrics as computed. *)
Theorem odin_results_degenerate_auc (ds ood : Dataset F)
    (pred_ds pred_ood pred : matrix F) (ds' ood' : iterable (batch F))
    (y_true predicted : list Z) (erroneous_prediction : list bool)
    (confidence p : vec F) (accuracy threshold ood_accuracy ood_auc fpr : F) :
  let model := make_model (replace_BATCH_SIZE ds 16) in
  let ood_labels :=
    replicate (length pred_ood) 0%Z ++ replicate (length pred_ds) 1%Z in
  let all_pred := (λ row, Z.b2z (existsb (fltb threshold) row)) <$> pred in
  ODIN (batches_for ds 16) model (flit 2) (flit (3 # 10)%Q) = (Ok pred_ds, ds') →
  ODIN (batches_for ood 16) model (flit 2) (flit (3 # 10)%Q) = (Ok pred_ood, ood') →
  np_hstack (batch_y <$> (iterate ds').1) = Ok y_true →
  np_argmax1 pred_ds = Ok predicted →
  accuracy_score y_true predicted = Ok accuracy →
  np_vstack [pred_ood; pred_ds] = Ok pred →
  max1 pred_ds = Ok confidence →
  percentile confidence 5 = Ok threshold →
  accuracy_score ood_labels all_pred = Ok ood_accuracy →
  max1 pred = Ok p →
  roc_auc_score ood_labels p = Ok ood_auc →
  np_ne y_true predicted = Ok erroneous_prediction →
  roc_auc_score (Z.b2z <$> erroneous_prediction) confidence = Raise ValueError →
  fpr95 ood_labels p = Ok fpr →
  odin_results ds ood =
    Ok (<["FPR at 95% TPR" := PyFloat fpr]>
       (<["AUC anomaly score and misclassification" := PyInt (-123456789)]>
       (<["OOD AUC" := PyFloat ood_auc]>
       (<["OOD error" := PyFloat (fsub (flit 1) ood_accuracy)]>
       (<["threshold_ood" := PyFloat threshold]>
       (<["classification error" := PyFloat (fsub (flit 1) accuracy)]> ∅)))))).
Proof.
  intros model ood_labels all_pred Hds Hood Hy Hpredicted Hacc Hstack Hconf
    Hthr Hoodacc Hp Hauc Hne Hundef Hfpr.
  unfold odin_results, load. cbv zeta. simpl BATCH_SIZE. simpl batches_for.
  fold model. rewrite Hds, Hood. cbv beta iota. rewrite !bind_ret.
  destruct (iterate ds') as [batches ds''] eqn:Hiter. simpl in Hy.
  rewrite Hy, Hpredicted, Hconf, !bind_ret, Hacc, !bind_ret.
  rewrite Hstack, !bind_ret, Hthr, !bind_ret.
  fold ood_labels all_pred.
  rewrite Hoodacc, !bind_ret, Hp, !bind_ret, Hauc, !bind_ret.
  rewrite Hne, !bind_ret, Hundef, !bind_ret.
  rewrite Hfpr. reflexivity.
Qed.


End Aggregator.

Lemma sample_run :
  @odin_results Q Q_arith Ref.externals ds_reiterable ood_reiterable
  = Ok sample_result.
Proof. vm_cast_no_check (eq_refl (Ok sample_result)). Qed.

(** C1, as stated, fails on the sample run: the returned mapping also holds
    ['threshold_ood'], so its keys are not the five named ones. *)
Lemma odin_results_keys_counterexample :
  ∃ r, @odin_results Q Q_arith Ref.externals ds_reiterable ood_reiterable = Ok r
       ∧ "threshold_ood" ∈ dom r ∧ dom r ≠ named_keys.
Proof.
  exists sample_result. split; [exact sample_run|].
  assert (Hin : "threshold_ood" ∈ dom sample_result).
  { unfold sample_result. rewrite !dom_insert_L. set_solver. }
  split; [done|]. intros Heq. rewrite Heq in Hin.
  unfold named_keys in Hin. set_solver.
Qed.

Lemma odin_results_keys_witness :
  ∃ r, @odin_results Q Q_arith Ref.externals ds_reiterable ood_reiterable = Ok r
       ∧ dom r = stored_keys.
Proof.
  exists sample_result. split; [exact sample_run|].
  apply (odin_results_keys ds_reiterable ood_reiterable sample_result sample_run).
Defined.

(** ** Exact arithmetic: the rows are probability vectors *)

Section Reals.
Context {E : Externals R}.
Open Scope R_scope.

Lemma Q2R_zero : Q2R 0 = 0.
Proof. unfold Q2R. simpl. lra. Qed.

Lemma np_sum_real (row : list R) : np_sum row = foldr Rplus 0 row.
Proof. unfold np_sum. simpl. by rewrite Q2R_zero. Qed.

Lemma sum_exp_nonneg (l : list R) : 0 <= foldr Rplus 0 (map exp l).
Proof.
  induction l as [|v l IH]; simpl; [lra|].
  pose proof (exp_pos v). lra.
Qed.

Lemma sum_exp_pos (l : list R) : l ≠ [] → 0 < foldr Rplus 0 (map exp l).
Proof.
  destruct l as [|v l]; [done|]. intros _. simpl.
  pose proof (exp_pos v). pose proof (sum_exp_nonneg l). lra.
Qed.

Lemma sum_div (e : list R) (total : R) :
  foldr Rplus 0 (map (λ v, v / total) e) = foldr Rplus 0 e / total.
Proof.
  induction e as [|v e IH]; simpl; [lra|]. rewrite IH. lra.
Qed.

Lemma softmax_row_real (row : list R) (mx : R) :
  row ≠ [] →
  Forall (λ p, 0 <= p) (softmax_row row mx)
  ∧ foldr Rplus 0 (softmax_row row mx) = 1.
Proof.
  intros Hrow. unfold softmax_row. simpl. rewrite np_sum_real.
  set (shifted := map (λ v, v - mx) row).
  assert (Hpos : 0 < foldr Rplus 0 (map exp shifted)).
  { apply sum_exp_pos. subst shifted. by destruct row. }
  split.
  - apply Forall_forall. intros p Hp. apply list_elem_of_In in Hp.
    apply in_map_iff in Hp as (v & <- & Hv).
    apply in_map_iff in Hv as (u & <- & _).
    apply Rlt_le, Rdiv_lt_0_compat; [apply exp_pos | done].
  - rewrite sum_div. field. lra.
Qed.

End Reals.

(** ** The theorems on the sample data *)

(** The reference AUC is undefined on labels of a single class, which is
    what all-correct and all-incorrect predictions give. *)
Lemma scores_of_none {F : Type} (keep : Z → bool) (y_true : list Z) (y_score : vec F) :
  Forall (λ y, keep y = false) y_true → Ref.scores_of keep y_true y_score = [].
Proof.
  unfold Ref.scores_of. intros Hall. revert y_score.
  induction Hall as [|y y_true Hy _ IH]; intros [|s y_score]; simpl; try done.
  rewrite filter_cons_False by (simpl; congruence). apply IH.
Qed.

Lemma ref_auc_single_class {F : Type} {A : Arith F} (erroneous : list bool)
    (y_score : vec F) :
  Forall (λ b, b = true) erroneous ∨ Forall (λ b, b = false) erroneous →
  Ref.roc_auc_score (Z.b2z <$> erroneous) y_score = Raise ValueError.
Proof.
  unfold Ref.roc_auc_score, Ref.positives, Ref.negatives.
  intros [Hall|Hall].
  - rewrite (scores_of_none (λ y, negb (Z.eqb 1 y))).
    + by destruct (Ref.scores_of _ _ _).
    + apply Forall_fmap. eapply Forall_impl; [exact Hall|]. by intros b ->.
  - rewrite (scores_of_none (Z.eqb 1)); [done|].
    apply Forall_fmap. eapply Forall_impl; [exact Hall|]. by intros b ->.
Qed.

Lemma Qle_bool_trans (a b c : Q) :
  Qle_bool a b = true → Qle_bool b c = true → Qle_bool a c = true.
Proof. rewrite !Qle_bool_iff. apply Qle_trans. Qed.


Lemma step_model_classes {F : Type} {A : Arith F} (x : tensor F) :
  Forall (λ row, length row = 2) (Ref.step_model x).
Proof.
  unfold Ref.step_model. apply Forall_fmap, Forall_true. intros [|v example]; simpl;
    [done | by destruct (fltb _ _)].
Qed.

(** C2, as stated, fails on a dataset that can be walked once: the scorer
    has used up the three batches, the pass that collects the labels
    [0; 0; 1] of [ds_batches] finds none, and the run ends in [ValueError]
    without a classification error. *)
Lemma odin_results_oneshot_counterexample :
  batches_for ds_oneshot 16 = OneShot ds_batches
  ∧ concat (batch_y <$> ds_batches) = [0; 0; 1]%Z
  ∧ @ODIN Q Q_arith Ref.externals (OneShot ds_batches) Ref.step_model 2%Q (3 # 10)%Q
    = (Ok sample_pred_ds, OneShot [])
  ∧ np_hstack (batch_y <$> (iterate (OneShot (A:=batch Q) [])).1) = Raise ValueError
  ∧ @odin_results Q Q_arith Ref.externals ds_oneshot ood_reiterable
    = Raise ValueError.
Proof.
  split; [reflexivity|]. split; [reflexivity|].
  split; [vm_compute; reflexivity|]. split; [reflexivity|].
  vm_compute. reflexivity.
Qed.

Lemma odin_results_classification_error_witness :
  ∃ pred_ds predicted accuracy,
    (@ODIN Q Q_arith Ref.externals (Reiterable ds_batches) Ref.step_model
       2%Q (3 # 10)%Q).1 = Ok pred_ds
    ∧ np_argmax1 pred_ds = Ok predicted
    ∧ Ref.accuracy_score [0; 0; 1]%Z predicted = Ok accuracy
    ∧ sample_result !! "classification error"
      = Some (PyFloat (fsub (flit 1) accuracy)).
Proof.
  exact (odin_results_classification_error (E:=Ref.externals)
           ds_reiterable ood_reiterable ds_batches sample_result
           eq_refl sample_run).
Defined.

Lemma sample_curve :
  @roc_curve Q Ref.externals [1; 0; 1; 0]%Z [4; 3; 2; 1]%Q
  = Ok ([0; 0; 1 # 2; 1 # 2; 1]%Q, [0; 1 # 2; 1 # 2; 1; 1]%Q, [5; 4; 3; 2; 1]%Q).
Proof. reflexivity. Qed.

Lemma sample_curve_no_positive :
  @roc_curve Q Ref.externals [0; 0]%Z [1 # 2; 1 # 3]%Q
  = Ok ([0; 1 # 2; 1]%Q, [0; 0; 0]%Q, [3 # 2; 1 # 2; 1 # 3]%Q).
Proof. reflexivity. Qed.

Lemma fpr95_first_point_or_error_witness :
  @fpr95 Q Q_arith Ref.externals [1; 0; 1; 0]%Z [4; 3; 2; 1]%Q = Ok (1 # 2)%Q
  ∧ @fpr95 Q Q_arith Ref.externals [0; 0]%Z [1 # 2; 1 # 3]%Q = Raise IndexError.
Proof.
  split.
  - apply (proj1 (fpr95_first_point_or_error (E:=Ref.externals) _ _ _ _ _
                    sample_curve) 3 1%Q (1 # 2)%Q);
      [reflexivity | reflexivity | | reflexivity].
    intros j u Hj Hu. do 3 (try destruct j as [|j]); simpl in Hu;
      first [lia | by simplify_eq].
  - apply (proj2 (fpr95_first_point_or_error (E:=Ref.externals) _ _ _ _ _
                    sample_curve_no_positive)).
    repeat constructor.
Defined.

Lemma odin_results_degenerate_auc_witness :
  @odin_results Q Q_arith Ref.externals ds_correct ood_reiterable =
    Ok (<["FPR at 95% TPR" := PyFloat 0%Q]>
       (<["AUC anomaly score and misclassification" := PyInt (-123456789)]>
       (<["OOD AUC" := PyFloat 1%Q]>
       (<["OOD error" := PyFloat (fsub (flit 1) (2 # 5)%Q)]>
       (<["threshold_ood" := PyFloat (13 # 21)%Q]>
       (<["classification error" := PyFloat (fsub (flit 1) 1%Q)]> ∅)))))).
Proof.
  refine (odin_results_degenerate_auc (E:=Ref.externals) ds_correct ood_reiterable
            sample_pred_ds sample_pred_ood (sample_pred_ood ++ sample_pred_ds)
            (Reiterable ds_correct_batches) (Reiterable ood_batches)
            [0; 0; 0]%Z [0; 0; 0]%Z [false; false; false]
            [13 # 21; 13 # 21; 13 # 21]%Q
            [1 # 2; 1 # 2; 13 # 21; 13 # 21; 13 # 21]%Q
            1%Q (13 # 21)%Q (2 # 5)%Q 1%Q 0%Q
            _ _ _ _ _ _ _ _ _ _ _ _ _ _);
    vm_compute; reflexivity.
Defined.


Lemma fpr_at_tpr_monotone_witness :
  ∃ v1, @fpr_at_tpr Q Q_arith Ref.externals (1 # 2)%Q [1; 0; 1; 0]%Z [4; 3; 2; 1]%Q
        = Ok v1
        ∧ fleb v1 (1 # 2)%Q = true.
Proof.
  apply (fpr_at_tpr_monotone (E:=Ref.externals) [1; 0; 1; 0]%Z [4; 3; 2; 1]%Q
           [0; 0; 1 # 2; 1 # 2; 1]%Q [0; 1 # 2; 1 # 2; 1; 1]%Q [5; 4; 3; 2; 1]%Q
           (1 # 2)%Q (95 # 100)%Q (1 # 2)%Q).
  - exact Qle_bool_trans.
  - exact sample_curve.
  - intros i j u v Hij Hu Hv.
    do 5 (try destruct i as [|i]); do 5 (try destruct j as [|j]);
      simpl in Hu, Hv; first [lia | done | by simplify_eq].
  - reflexivity.
  - reflexivity.
Defined.

Lemma ODIN_no_batches_raises_witness :
  (@ODIN Q Q_arith Ref.externals (OneShot []) Ref.step_model 2%Q (3 # 10)%Q).1
  = Raise ValueError.
Proof.
  apply (ODIN_no_batches_raises (E:=Ref.externals)). reflexivity.
Defined.

Lemma ODIN_reads_inputs_only_witness :
  (@ODIN Q Q_arith Ref.externals (Reiterable ds_batches) Ref.step_model
     2%Q (3 # 10)%Q).1
  = (@ODIN Q Q_arith Ref.externals (OneShot ds_correct_batches) Ref.step_model
       2%Q (3 # 10)%Q).1.
Proof.
  apply (ODIN_reads_inputs_only (E:=Ref.externals)). reflexivity.
Defined.

(** ** Further properties of the scorer *)

Section ScorerShape.
Context {F : Type} {A : Arith F} {E : Externals F}.

Lemma same_width_true (a : matrix F) :
  same_width a = true ↔ ∃ n, Forall (λ row, length row = n) a.
Proof.
  split.
  - destruct a as [|r rs]; [by exists 0|]. simpl. intros Hall.
    exists (length r). constructor; [done|].
    apply Forall_forall. intros r' Hr'. apply list_elem_of_In in Hr'.
    rewrite forallb_forall in Hall. symmetry. by apply Nat.eqb_eq, Hall.
  - intros [n Hn]. by eapply same_width_uniform.
Qed.

Lemma ODIN_batch_nonempty (model : tensor F → matrix F) (temperature epsilon : F)
    (x : tensor F) (m : matrix F) :
  ODIN_batch model temperature epsilon x = Ok m → Forall (λ row, row ≠ []) m.
Proof.
  unfold ODIN_batch. rewrite bind_Ok. intros (labels & _ & Hsoft).
  apply softmax_shape in Hsoft.
  eapply Forall2_Forall_r; [exact Hsoft|]. apply Forall_true.
  intros row srow [Hrow Hlen]. destruct srow; [|done].
  destruct row; [done | discriminate].
Qed.

Lemma np_vstack_Ok (blocks : list (matrix F)) (M : matrix F) :
  np_vstack blocks = Ok M ↔
  blocks ≠ [] ∧ M = concat blocks ∧ same_width M = true.
Proof.
  unfold np_vstack. destruct blocks as [|b blocks].
  - split; [done | by intros [? _]].
  - destruct (same_width (concat (b :: blocks))) eqn:Hw.
    + split; [intros [= <-]; done | by intros (_ & -> & _)].
    + split; [done | intros (_ & -> & Hw'); congruence].
Qed.

(** X1: a matrix the scorer returns is never ragged and never without
    columns: the dataset yielded at least one batch, and all rows have one
    and the same positive number of entries. *)
Theorem ODIN_matrix_rectangular (ds : iterable (batch F))
    (model : tensor F → matrix F) (temperature epsilon : F) (M : matrix F) :
  (ODIN ds model temperature epsilon).1 = Ok M →
  (iterate ds).1 ≠ [] ∧ ∃ k, Forall (λ row, length row = S k) M.
Proof.
  unfold ODIN. destruct (iterate ds) as [batches ds']. simpl.
  rewrite bind_Ok. intros (ots & Hots & Hstack).
  apply np_vstack_Ok in Hstack as (Hne & -> & Hw).
  apply res_mapM_Ok in Hots. split.
  - intros ->. inversion Hots; by subst.
  - assert (Hrows : Forall (λ row : list F, row ≠ []) (concat ots)).
    { apply Forall_concat. eapply Forall2_Forall_r; [exact Hots|].
      apply Forall_true. intros b m. apply ODIN_batch_nonempty. }
    apply same_width_true in Hw as [n Hn].
    destruct (concat ots) as [|row M]; [by exists 0|].
    inversion Hrows as [|? ? Hrow _]; inversion Hn as [|? ? Hlen _]; subst.
    destruct row as [|v row]; [done|]. by exists (length row).
Qed.

(** X3: the rows come out in batch order, and scoring composes with
    concatenation: when a dataset yields the batches of a first dataset
    followed by those of a second, both with at least one batch, the matrix
    returned for it is the matrix of the first stacked on the matrix of the
    second. *)
Theorem ODIN_split (ds ds1 ds2 : iterable (batch F))
    (model : tensor F → matrix F) (temperature epsilon : F) (M : matrix F) :
  (iterate ds).1 = (iterate ds1).1 ++ (iterate ds2).1 →
  (iterate ds1).1 ≠ [] → (iterate ds2).1 ≠ [] →
  (ODIN ds model temperature epsilon).1 = Ok M →
  ∃ M1 M2, (ODIN ds1 model temperature epsilon).1 = Ok M1
           ∧ (ODIN ds2 model temperature epsilon).1 = Ok M2
           ∧ M = M1 ++ M2.
Proof.
  unfold ODIN.
  destruct (iterate ds) as [batches ds'], (iterate ds1) as [l1 ds1'],
    (iterate ds2) as [l2 ds2']. simpl. intros -> Hl1 Hl2.
  rewrite bind_Ok. intros (ots & Hots & Hstack).
  apply np_vstack_Ok in Hstack as (_ & -> & Hw).
  apply res_mapM_Ok, Forall2_app_inv_l in Hots
    as (ots1 & ots2 & Hots1 & Hots2 & ->).
  rewrite concat_app in Hw |- *.
  apply same_width_true in Hw as [n Hn]. apply Forall_app in Hn as [Hn1 Hn2].
  exists (concat ots1), (concat ots2). repeat split; try done.
  - apply res_mapM_Ok in Hots1 as Hrun. rewrite Hrun, bind_ret.
    apply np_vstack_Ok. split.
    + intros ->. inversion Hots1; by subst.
    + split; [done|]. apply same_width_true. eauto.
  - apply res_mapM_Ok in Hots2 as Hrun. rewrite Hrun, bind_ret.
    apply np_vstack_Ok. split.
    + intros ->. inversion Hots2; by subst.
    + split; [done|]. apply same_width_true. eauto.
Qed.

(** X4: on an ROC curve whose false-positive rates do not decrease along
    the curve, the value [fpr95] returns is the least false-positive rate
    among the points of the curve whose true-positive rate is at least 0.95:
    it is the rate of such a point, and no such point has a smaller one. *)
Theorem fpr95_least (y_true : list Z) (y_pred fpr tpr thr : vec F) (v : F) :
  roc_curve y_true y_pred = Ok (fpr, tpr, thr) →
  (∀ i j u w, i ≤ j → fpr !! i = Some u → fpr !! j = Some w → fleb u w = true) →
  fpr95 y_true y_pred = Ok v →
  (∃ i t, tpr !! i = Some t ∧ fleb (flit (95 # 100)%Q) t = true
          ∧ fpr !! i = Some v)
  ∧ (∀ j t w, tpr !! j = Some t → fleb (flit (95 # 100)%Q) t = true →
              fpr !! j = Some w → fleb v w = true).
Proof.
  intros Hroc Hmono Hv.
  rewrite fpr95_is_fpr_at_tpr in Hv.
  apply (fpr_at_tpr_Ok _ _ _ _ _ _ _ Hroc) in Hv
    as (i & ti & Hti & Hreachi & Hfirst & Hvi).
  split; [by exists i, ti|].
  intros j t w Ht Hreach Hw.
  apply (Hmono i j); [|done..].
  destruct (decide (i ≤ j)) as [|Hlt]; [done|].
  assert (fleb (flit (95 # 100)%Q) t = false) by (eapply Hfirst; [|done]; lia).
  congruence.
Qed.

End ScorerShape.

(** ** Further properties of the aggregator *)

Lemma bind_raise {A B : Type} (e : exn) (f : A → res B) : Raise e ≫= f = Raise e.
Proof. reflexivity. Qed.

(** Identifies the results of one and the same call. *)
Ltac same_call :=
  repeat match goal with
    | H1 : ?t = _, H2 : ?t = _ |- _ => rewrite H1 in H2; simplify_eq
    end.

Section AggregatorEdges.
Context {F : Type} {A : Arith F} {E : Externals F}.

Lemma ODIN_empty (ds : iterable (batch F)) (model : tensor F → matrix F)
    (temperature epsilon : F) :
  (iterate ds).1 = [] →
  ODIN ds model temperature epsilon = (Raise ValueError, (iterate ds).2).
Proof. unfold ODIN. destruct (iterate ds) as [batches ds']. simpl. by intros ->. Qed.

(** X5: an empty dataset stops [odin_results] with [ValueError] before any
    metric is computed: at once when the in-distribution dataset yields no
    batch, and after the first scorer pass when the out-of-distribution
    dataset yields none. *)
Theorem odin_results_empty_dataset (ds ood : Dataset F) :
  ((iterate (batches_for ds 16)).1 = [] →
   odin_results ds ood = Raise ValueError)
  ∧ (∀ pred_ds ds',
       ODIN (batches_for ds 16) (make_model (replace_BATCH_SIZE ds 16))
         (flit 2) (flit (3 # 10)%Q) = (Ok pred_ds, ds') →
       (iterate (batches_for ood 16)).1 = [] →
       odin_results ds ood = Raise ValueError).
Proof.
  split.
  - intros Hempty. unfold odin_results, load. cbv zeta.
    simpl BATCH_SIZE. simpl batches_for.
    by rewrite (ODIN_empty _ _ _ _ Hempty).
  - intros pred_ds ds' Hds Hempty. unfold odin_results, load. cbv zeta.
    simpl BATCH_SIZE. simpl batches_for.
    rewrite Hds. cbv beta iota. rewrite bind_ret.
    by rewrite (ODIN_empty _ _ _ _ Hempty).
Qed.

(** X6: only [ValueError] is turned into the sentinel.  When every earlier
    step has succeeded and the AUC of anomaly score against misclassification
    raises another exception, [odin_results] raises that exception and
    returns no mapping. *)
Theorem odin_results_auc_other_exception (ds ood : Dataset F)
    (pred_ds pred_ood pred : matrix F) (ds' ood' : iterable (batch F))
    (y_true predicted : list Z) (erroneous_prediction : list bool)
    (confidence p : vec F) (accuracy threshold ood_accuracy ood_auc : F)
    (e : exn) :
  let model := make_model (replace_BATCH_SIZE ds 16) in
  let ood_labels :=
    replicate (length pred_ood) 0%Z ++ replicate (length pred_ds) 1%Z in
  let all_pred := (λ row, Z.b2z (existsb (fltb threshold) row)) <$> pred in
  ODIN (batches_for ds 16) model (flit 2) (flit (3 # 10)%Q) = (Ok pred_ds, ds') →
  ODIN (batches_for ood 16) model (flit 2) (flit (3 # 10)%Q) = (Ok pred_ood, ood') →
  np_hstack (batch_y <$> (iterate ds').1) = Ok y_true →
  np_argmax1 pred_ds = Ok predicted →
  accuracy_score y_true predicted = Ok accuracy →
  np_vstack [pred_ood; pred_ds] = Ok pred →
  max1 pred_ds = Ok confidence →
  percentile confidence 5 = Ok threshold →
  accuracy_score ood_labels all_pred = Ok ood_accuracy →
  max1 pred = Ok p →
  roc_auc_score ood_labels p = Ok ood_auc →
  np_ne y_true predicted = Ok erroneous_prediction →
  roc_auc_score (Z.b2z <$> erroneous_prediction) confidence = Raise e →
  e ≠ ValueError →
  odin_results ds ood = Raise e.
Proof.
  intros model ood_labels all_pred Hds Hood Hy Hpredicted Hacc Hstack Hconf
    Hthr Hoodacc Hp Hauc Hne Hother He.
  unfold odin_results, load. cbv zeta. simpl BATCH_SIZE. simpl batches_for.
  fold model. rewrite Hds, Hood. cbv beta iota. rewrite !bind_ret.
  destruct (iterate ds') as [batches ds''] eqn:Hiter. simpl in Hy.
  rewrite Hy, Hpredicted, Hconf, !bind_ret, Hacc, !bind_ret.
  rewrite Hstack, !bind_ret, Hthr, !bind_ret.
  fold ood_labels all_pred.
  rewrite Hoodacc, !bind_ret, Hp, !bind_ret, Hauc, !bind_ret.
  rewrite Hne, !bind_ret, Hother.
  by destruct e.
Qed.

(** X7: in a mapping [odin_results] returns, every value is a float, except
    that the entry ['AUC anomaly score and misclassification'] may be the
    integer -123456789; no other integer and no other key holds one. *)
Theorem odin_results_value_kinds (ds ood : Dataset F)
    (r : gmap string (pyval F)) (k : string) (v : pyval F) :
  odin_results ds ood = Ok r →
  r !! k = Some v →
  (∃ x, v = PyFloat x)
  ∨ (k = "AUC anomaly score and misclassification" ∧ v = PyInt (-123456789)).
Proof.
  intros Hrun Hk. run_inv Hrun. injection Hrun as <-.
  apply lookup_insert_Some in Hk as [[<- <-]|[_ Hk]]; [left; eauto|].
  apply lookup_insert_Some in Hk as [[<- <-]|[_ Hk]].
  { match goal with
    | H : match ?call with _ => _ end = Ok _ |- _ =>
        destruct call as [auc|[]]; simplify_eq
    end; [left; eauto | by right]. }
  do 4 (apply lookup_insert_Some in Hk as [[<- <-]|[_ Hk]]; [left; eauto|]).
  by rewrite lookup_empty in Hk.
Qed.

(** X8: when both scorer passes have returned their matrices and the
    in-distribution dataset hands out each batch once, the pass of line 74
    that collects the labels finds no batch and [odin_results] ends in
    [ValueError]. *)
Theorem odin_results_oneshot_second_pass (ds ood : Dataset F)
    (items : list (batch F)) (pred_ds pred_ood : matrix F)
    (ds' ood' : iterable (batch F)) :
  let model := make_model (replace_BATCH_SIZE ds 16) in
  batches_for ds 16 = OneShot items →
  ODIN (batches_for ds 16) model (flit 2) (flit (3 # 10)%Q) = (Ok pred_ds, ds') →
  ODIN (batches_for ood 16) model (flit 2) (flit (3 # 10)%Q) = (Ok pred_ood, ood') →
  odin_results ds ood = Raise ValueError.
Proof.
  intros model Hload Hds Hood.
  pose proof (ODIN_leaves (batches_for ds 16) model (flit 2) (flit (3 # 10)%Q))
    as Hleft.
  rewrite Hds, Hload in Hleft. simpl in Hleft. subst ds'.
  unfold odin_results, load. cbv zeta. simpl BATCH_SIZE. simpl batches_for.
  fold model. rewrite Hds, Hood. cbv beta iota. by rewrite !bind_ret.
Qed.

(** X9: what [odin_results] reports about the in-distribution data alone
    does not depend on the out-of-distribution dataset: two successful runs
    on one in-distribution dataset agree on ['classification error'],
    ['threshold_ood'] and ['AUC anomaly score and misclassification']. *)
Theorem odin_results_in_distribution_entries (ds ood1 ood2 : Dataset F)
    (r1 r2 : gmap string (pyval F)) :
  odin_results ds ood1 = Ok r1 →
  odin_results ds ood2 = Ok r2 →
  r1 !! "classification error" = r2 !! "classification error"
  ∧ r1 !! "threshold_ood" = r2 !! "threshold_ood"
  ∧ r1 !! "AUC anomaly score and misclassification"
    = r2 !! "AUC anomaly score and misclassification".
Proof.
  intros Hrun1 Hrun2. run_inv Hrun1. run_inv Hrun2.
  injection Hrun1 as <-. injection Hrun2 as <-.
  subst. same_call. same_call.
  repeat split; by simplify_map_eq.
Qed.

Lemma ODIN_same_inputs (ds1 ds2 : iterable (batch F))
    (model : tensor F → matrix F) (temperature epsilon : F) :
  batch_x <$> (iterate ds1).1 = batch_x <$> (iterate ds2).1 →
  (ODIN ds1 model temperature epsilon).1 = (ODIN ds2 model temperature epsilon).1.
Proof.
  unfold ODIN. destruct (iterate ds1) as [l1 ?], (iterate ds2) as [l2 ?].
  simpl. intros Hx.
  by rewrite !(res_mapM_fmap batch_x (ODIN_batch model temperature epsilon)), Hx.
Qed.

(** X14: the out-of-distribution metrics do not read the ground truth: two
    successful runs on in-distribution datasets that yield the same inputs
    and get the same model, whatever their labels and weights, agree on
    ['threshold_ood'], ['OOD error'], ['OOD AUC'] and ['FPR at 95% TPR']. *)
Theorem odin_results_ood_entries_ignore_labels (ds1 ds2 ood : Dataset F)
    (r1 r2 : gmap string (pyval F)) :
  make_model (replace_BATCH_SIZE ds1 16) = make_model (replace_BATCH_SIZE ds2 16) →
  batch_x <$> (iterate (batches_for ds1 16)).1
  = batch_x <$> (iterate (batches_for ds2 16)).1 →
  odin_results ds1 ood = Ok r1 →
  odin_results ds2 ood = Ok r2 →
  r1 !! "threshold_ood" = r2 !! "threshold_ood"
  ∧ r1 !! "OOD error" = r2 !! "OOD error"
  ∧ r1 !! "OOD AUC" = r2 !! "OOD AUC"
  ∧ r1 !! "FPR at 95% TPR" = r2 !! "FPR at 95% TPR".
Proof.
  intros Hmodel Hinputs Hrun1 Hrun2. run_inv Hrun1. run_inv Hrun2.
  injection Hrun1 as <-. injection Hrun2 as <-.
  unfold load in *. simpl BATCH_SIZE in *. simpl batches_for in *.
  rewrite <- Hmodel in *.
  pose proof (ODIN_same_inputs _ _ (make_model (replace_BATCH_SIZE ds1 16))
                (flit 2) (flit (3 # 10)%Q) Hinputs) as Hsame.
  repeat match goal with
    | H : ODIN _ _ _ _ = (_, _) |- _ => rewrite H in Hsame
    end.
  simpl in Hsame. subst. same_call. same_call.
  repeat split; by simplify_map_eq.
Qed.

End AggregatorEdges.

(** ** Further properties in exact arithmetic *)

Lemma res_mapM_ext {B C : Type} (f g : B → res C) (l : list B) :
  Forall (λ b, f b = g b) l → res_mapM f l = res_mapM g l.
Proof. induction 1 as [|b l Hb _ IH]; simpl; [done | by rewrite Hb, IH]. Qed.

Lemma ODIN_softmax_rows {F : Type} {A : Arith F} {E : Externals F}
    (ds : iterable (batch F)) (model : tensor F → matrix F)
    (temperature epsilon : F) (M : matrix F) :
  (ODIN ds model temperature epsilon).1 = Ok M →
  Forall (λ srow, ∃ row mx, np_max row = Ok mx ∧ srow = softmax_row row mx) M.
Proof.
  unfold ODIN. destruct (iterate ds) as [batches ds']. simpl.
  rewrite bind_Ok. intros (ots & Hots & Hstack).
  apply np_vstack_Ok in Hstack as (_ & -> & _).
  apply Forall_concat. apply res_mapM_Ok in Hots.
  eapply Forall2_Forall_r; [exact Hots|]. apply Forall_true. intros b m.
  unfold ODIN_batch. rewrite bind_Ok. intros (labels & _ & Hsoft).
  apply softmax_Ok in Hsoft.
  eapply Forall2_Forall_r; [exact Hsoft|]. apply Forall_true. eauto.
Qed.

Section RealsOrder.
Context {E : Externals R}.
Open Scope R_scope.

Lemma fltb_real (x y : R) : fltb x y = true ↔ x < y.
Proof.
  change (Rltb x y = true ↔ x < y). unfold Rltb.
  destruct (Rlt_dec x y); split; intros; first [done | contradiction].
Qed.

Lemma fltb_real_false (x y : R) : fltb x y = false ↔ y <= x.
Proof.
  rewrite <- not_true_iff_false, fltb_real. split; [apply Rnot_lt_le | apply Rle_not_lt].
Qed.

Lemma fltb_real_monotone (f : R → R) (u v : R) :
  (∀ x y, x < y ↔ f x < f y) → fltb (f u) (f v) = fltb u v.
Proof.
  intros Hf. destruct (fltb u v) eqn:Huv.
  - apply fltb_real, (proj1 (Hf u v)). by apply fltb_real.
  - apply fltb_real_false. apply fltb_real_false in Huv.
    apply Rnot_lt_le. intros Hlt. apply (proj2 (Hf u v)) in Hlt. lra.
Qed.

(** The running maximum of [np.max]. *)
Lemma foldl_max_real (vs : list R) (a : R) :
  a <= foldl (λ m u, if fltb m u then u else m) a vs
  ∧ Forall (λ v, v <= foldl (λ m u, if fltb m u then u else m) a vs) vs
  ∧ (foldl (λ m u, if fltb m u then u else m) a vs = a
     ∨ foldl (λ m u, if fltb m u then u else m) a vs ∈ vs).
Proof.
  revert a. induction vs as [|u vs IH]; intros a; cbn [foldl].
  - split; [lra|]. split; [constructor | by left].
  - destruct (fltb a u) eqn:Hau.
    + apply fltb_real in Hau. destruct (IH u) as (Hle & Hall & Hin).
      split; [lra|]. split; [by constructor|].
      right. destruct Hin as [->|Hin]; [left | by right].
    + apply fltb_real_false in Hau. destruct (IH a) as (Hle & Hall & Hin).
      split; [done|]. split; [constructor; [lra | done]|].
      destruct Hin as [Hin|Hin]; [by left | right; by right].
Qed.

Lemma np_max_real (row : list R) (m : R) :
  np_max row = Ok m → m ∈ row ∧ Forall (λ v, v <= m) row.
Proof.
  destruct row as [|v vs]; [done|]. unfold np_max. intros [= <-].
  destruct (foldl_max_real vs v) as (Hle & Hall & Hin).
  change (@fltb R R_arith) with Rltb in *. split.
  - destruct Hin as [->|Hin]; [left | by right].
  - by constructor.
Qed.

Lemma any_above_real (row : list R) (m threshold : R) :
  np_max row = Ok m → existsb (fltb threshold) row = fltb threshold m.
Proof.
  intros Hm. apply np_max_real in Hm as [Hin Hall].
  destruct (fltb threshold m) eqn:Hthr.
  - apply existsb_exists. exists m. split; [by apply list_elem_of_In | done].
  - destruct (existsb (fltb threshold) row) eqn:Hany; [|done].
    apply existsb_exists in Hany as (v & Hv & Hgt).
    apply list_elem_of_In in Hv. rewrite Forall_forall in Hall.
    specialize (Hall v Hv). apply fltb_real in Hgt.
    apply fltb_real_false in Hthr. lra.
Qed.

(** X10: in exact arithmetic the rule of line 85, a row counts as
    in-distribution when any of its entries is above the threshold, gives
    the same predictions as comparing the row maximum with the threshold. *)
Theorem any_above_is_max_above (pred : matrix R) (p : vec R) (threshold : R) :
  max1 pred = Ok p →
  (λ row, Z.b2z (existsb (fltb threshold) row)) <$> pred
  = (λ m, Z.b2z (fltb threshold m)) <$> p.
Proof.
  unfold max1. rewrite res_mapM_Ok.
  induction 1 as [|row m pred p Hm _ IH]; [done|].
  rewrite !fmap_cons, IH. f_equal. f_equal. by apply any_above_real.
Qed.

(** *** The shift by the row maximum *)

Lemma sum_exp_shift (row : list R) (mx : R) :
  foldr Rplus 0 (map exp (map (λ v, v - mx) row))
  = foldr Rplus 0 (map exp row) * exp (- mx).
Proof.
  induction row as [|v row IH]; cbn [map foldr]; [lra|].
  rewrite IH. unfold Rminus. rewrite exp_plus. lra.
Qed.

Lemma softmax_row_plain (row : list R) (mx : R) :
  softmax_row row mx = plain_softmax_row row.
Proof.
  unfold softmax_row, plain_softmax_row. cbv zeta. rewrite np_sum_real.
  change (map fexp (map (λ v, fsub v mx) row))
    with (map exp (map (λ v, v - mx) row)).
  rewrite sum_exp_shift, !map_map.
  destruct (decide (row = [])) as [->|Hrow]; [done|].
  pose proof (sum_exp_pos row Hrow) as Hpos. pose proof (exp_pos (- mx)) as Hmx.
  apply map_ext. intros v.
  change (exp (v - mx) / (foldr Rplus 0 (map exp row) * exp (- mx))
          = exp v / foldr Rplus 0 (map exp row)).
  unfold Rminus. rewrite exp_plus. field. lra.
Qed.

Lemma softmax_is_plain_softmax_aux (a s : matrix R) :
  softmax a = Ok s → s = plain_softmax_row <$> a.
Proof.
  rewrite softmax_Ok. induction 1 as [|row srow a s (mx & _ & ->) _ IH]; [done|].
  by rewrite fmap_cons, IH, softmax_row_plain.
Qed.

(** X11: in exact arithmetic, subtracting the row maximum before
    exponentiating (line 42) does not change the result: what lines 42-43
    return is the plain softmax [exp v / sum (exp row)] of every row, and
    they return it for every matrix without an empty row. *)
Theorem softmax_is_plain_softmax (a : matrix R) :
  Forall (λ row, row ≠ []) a →
  softmax a = Ok (plain_softmax_row <$> a).
Proof.
  intros Ha. destruct (softmax_returns a Ha) as [s Hs].
  by rewrite Hs, (softmax_is_plain_softmax_aux a s Hs).
Qed.

(** *** The predicted class *)

Lemma argmax_from_monotone (f : R → R) (vs : list R) (i best : Z) (m : R) :
  (∀ x y, x < y ↔ f x < f y) →
  argmax_from i best (f m) (map f vs) = argmax_from i best m vs.
Proof.
  intros Hf. revert i best m.
  induction vs as [|u vs IH]; intros i best m; cbn [map argmax_from]; [done|].
  rewrite (fltb_real_monotone f m u Hf). by destruct (fltb m u).
Qed.

Lemma argmax_row_softmax (e : exn) (row : list R) (temperature : R) :
  0 < temperature →
  argmax_row e (plain_softmax_row (map (λ v, v / temperature) row))
  = argmax_row e row.
Proof.
  intros HT. destruct row as [|v vs]; [done|].
  unfold plain_softmax_row. rewrite map_map.
  set (total := foldr Rplus 0 (map exp (map (λ v, v / temperature) (v :: vs)))).
  assert (Hpos : 0 < total) by (by apply sum_exp_pos).
  set (f := λ x, exp (x / temperature) / total).
  change (argmax_row e (f v :: map f vs) = argmax_row e (v :: vs)).
  unfold argmax_row. f_equal. apply argmax_from_monotone.
  intros x y. unfold f. split.
  - intros Hxy. apply Rmult_lt_compat_r; [by apply Rinv_0_lt_compat|].
    apply exp_increasing. apply Rmult_lt_compat_r; [by apply Rinv_0_lt_compat | done].
  - intros Hxy. apply Rmult_lt_reg_r in Hxy; [|by apply Rinv_0_lt_compat].
    apply exp_lt_inv in Hxy.
    apply Rmult_lt_reg_r in Hxy; [done | by apply Rinv_0_lt_compat].
Qed.

(** X12: in exact arithmetic and for a positive temperature, dividing the
    scores by the temperature and taking the softmax (lines 39-43) does not
    change which class comes first: the row-wise argmax of the confidences
    is the row-wise argmax of the scores. *)
Theorem softmax_preserves_argmax (a s : matrix R) (temperature : R) :
  0 < temperature →
  softmax (scale a temperature) = Ok s →
  np_argmax1 s = np_argmax1 a.
Proof.
  intros HT Hs. apply softmax_is_plain_softmax_aux in Hs as ->.
  unfold np_argmax1, scale.
  etrans; [symmetry; apply (res_mapM_fmap plain_softmax_row
                              (argmax_row ValueError))|].
  etrans; [symmetry; apply (res_mapM_fmap (map (λ v, v / temperature))
             (λ row, argmax_row ValueError (plain_softmax_row row)))|].
  apply res_mapM_ext, Forall_true. intros row.
  by apply argmax_row_softmax.
Qed.

(** *** The confidence score *)

Lemma elem_le_sum (l : list R) (m : R) :
  Forall (λ p, 0 <= p) l → m ∈ l → m <= foldr Rplus 0 l.
Proof.
  induction 1 as [|p l Hp Hl IH]; [by inversion 1|]. cbn [foldr].
  assert (0 <= foldr Rplus 0 l).
  { clear IH. induction Hl as [|q l Hq _ IHl]; cbn [foldr]; lra. }
  inversion 1; subst; [lra|]. specialize (IH ltac:(done)). lra.
Qed.

Lemma sum_le_mul (l : list R) (m : R) :
  Forall (λ p, p <= m) l → foldr Rplus 0 l <= INR (length l) * m.
Proof.
  induction 1 as [|p l Hp _ IH]; cbn [foldr length].
  - change (INR 0) with 0. lra.
  - rewrite S_INR. lra.
Qed.

Lemma softmax_row_confidence (row srow : list R) (mx : R) :
  np_max row = Ok mx → srow = softmax_row row mx →
  ∃ m, np_max srow = Ok m ∧ / INR (length srow) <= m <= 1.
Proof.
  intros Hmx ->. apply np_max_Ok in Hmx.
  destruct (softmax_row_real row mx Hmx) as [Hnonneg Hsum].
  set (srow := softmax_row row mx) in *.
  assert (Hne : srow ≠ []).
  { intros Hnil. apply (f_equal length) in Hnil. subst srow.
    rewrite softmax_row_length in Hnil. by destruct row. }
  destruct (np_max_returns srow Hne) as [m Hm]. exists m. split; [done|].
  apply np_max_real in Hm as [Hin Hall].
  pose proof (elem_le_sum srow m Hnonneg Hin) as Hle.
  pose proof (sum_le_mul srow m Hall) as Hge.
  assert (Hn : 0 < INR (length srow)).
  { apply lt_0_INR. destruct srow; [done | simpl; lia]. }
  split; [|lra].
  apply Rmult_le_reg_l with (INR (length srow)); [done|].
  rewrite Rinv_r by lra. lra.
Qed.

(** X13: in exact arithmetic every row of a matrix the scorer returns has a
    maximum, the confidence [max(1)] that lines 83, 91 and 99 read, and
    with [k] columns this confidence lies between [1/k] and [1]. *)
Theorem ODIN_confidence_bounds (ds : iterable (batch R))
    (model : tensor R → matrix R) (temperature epsilon : R) (M : matrix R) :
  (ODIN ds model temperature epsilon).1 = Ok M →
  ∃ p, max1 M = Ok p
       ∧ Forall2 (λ row m, / INR (length row) <= m <= 1) M p.
Proof.
  intros HM. apply ODIN_softmax_rows in HM.
  induction HM as [|srow M (row & mx & Hmx & Hsrow) _ (p & Hp & Hbounds)].
  - exists []. split; [done | constructor].
  - destruct (softmax_row_confidence row srow mx Hmx Hsrow) as (m & Hm & Hm1).
    exists (m :: p). split; [|by constructor].
    unfold max1 in *. cbn [res_mapM]. by rewrite Hm, bind_ret, Hp, bind_ret.
Qed.

Lemma max1_returns (a : matrix R) :
  Forall (λ row, row ≠ []) a → ∃ p, max1 a = Ok p.
Proof.
  intros Ha. apply res_mapM_returns. eapply Forall_impl; [exact Ha|].
  apply np_max_returns.
Qed.

End RealsOrder.

(** ** The further properties on the sample data *)

Lemma sample_first_pass :
  @ODIN Q Q_arith Ref.externals (batches_for ds_reiterable 16)
    (@make_model Q Ref.externals (replace_BATCH_SIZE ds_reiterable 16))
    (flit 2) (flit (3 # 10)%Q)
  = (Ok sample_pred_ds, Reiterable ds_batches).
Proof. vm_compute. reflexivity. Qed.

Lemma sample_first_pass_oneshot :
  @ODIN Q Q_arith Ref.externals (batches_for ds_oneshot 16)
    (@make_model Q Ref.externals (replace_BATCH_SIZE ds_oneshot 16))
    (flit 2) (flit (3 # 10)%Q)
  = (Ok sample_pred_ds, OneShot []).
Proof. vm_compute. reflexivity. Qed.

Lemma sample_second_pass :
  @ODIN Q Q_arith Ref.externals (batches_for ood_reiterable 16)
    (@make_model Q Ref.externals (replace_BATCH_SIZE ds_oneshot 16))
    (flit 2) (flit (3 # 10)%Q)
  = (Ok sample_pred_ood, Reiterable ood_batches).
Proof. vm_compute. reflexivity. Qed.

Lemma sample_scorer_run :
  (@ODIN Q Q_arith Ref.externals (Reiterable ds_batches) Ref.step_model
     2%Q (3 # 10)%Q).1 = Ok sample_pred_ds.
Proof. vm_compute. reflexivity. Qed.

Lemma sample_fpr95 :
  @fpr95 Q Q_arith Ref.externals [1; 0; 1; 0]%Z [4; 3; 2; 1]%Q = Ok (1 # 2)%Q.
Proof. vm_compute. reflexivity. Qed.

Lemma sample_run_other :
  @odin_results Q Q_arith Ref.externals ds_reiterable ood_other
  = Ok sample_result_other.
Proof. vm_cast_no_check (eq_refl (Ok sample_result_other)). Qed.

Lemma sample_run_correct :
  @odin_results Q Q_arith Ref.externals ds_correct ood_reiterable
  = Ok sample_result_correct.
Proof. vm_cast_no_check (eq_refl (Ok sample_result_correct)). Qed.

Lemma ODIN_matrix_rectangular_witness :
  (iterate (Reiterable ds_batches)).1 ≠ []
  ∧ ∃ k, Forall (λ row : list Q, length row = S k) sample_pred_ds.
Proof.
  exact (ODIN_matrix_rectangular (E:=Ref.externals) (Reiterable ds_batches)
           Ref.step_model 2%Q (3 # 10)%Q sample_pred_ds sample_scorer_run).
Defined.

Lemma ODIN_split_witness :
  ∃ M1 M2,
    (@ODIN Q Q_arith Ref.externals
       (Reiterable [ ([[1]; [2]]%Q, [0; 0]%Z, [1; 1]%Q) ]) Ref.step_model
       2%Q (3 # 10)%Q).1 = Ok M1
    ∧ (@ODIN Q Q_arith Ref.externals
         (OneShot [ ([[3]]%Q, [1]%Z, [1]%Q) ]) Ref.step_model
         2%Q (3 # 10)%Q).1 = Ok M2
    ∧ sample_pred_ds = M1 ++ M2.
Proof.
  apply (ODIN_split (E:=Ref.externals) (Reiterable ds_batches)).
  - reflexivity.
  - discriminate.
  - discriminate.
  - exact sample_scorer_run.
Defined.

Lemma fpr95_least_witness :
  (∃ i t, [0; 1 # 2; 1 # 2; 1; 1]%Q !! i = Some t
          ∧ @fleb Q Q_arith (flit (95 # 100)%Q) t = true
          ∧ [0; 0; 1 # 2; 1 # 2; 1]%Q !! i = Some (1 # 2)%Q)
  ∧ (∀ j t w, [0; 1 # 2; 1 # 2; 1; 1]%Q !! j = Some t →
              @fleb Q Q_arith (flit (95 # 100)%Q) t = true →
              [0; 0; 1 # 2; 1 # 2; 1]%Q !! j = Some w →
              @fleb Q Q_arith (1 # 2)%Q w = true).
Proof.
  apply (fpr95_least (E:=Ref.externals) [1; 0; 1; 0]%Z [4; 3; 2; 1]%Q
           [0; 0; 1 # 2; 1 # 2; 1]%Q [0; 1 # 2; 1 # 2; 1; 1]%Q [5; 4; 3; 2; 1]%Q
           (1 # 2)%Q sample_curve).
  - intros i j u w Hij Hu Hw.
    do 5 (try destruct i as [|i]); do 5 (try destruct j as [|j]);
      simpl in Hu, Hw; first [lia | done | by simplify_eq].
  - exact sample_fpr95.
Defined.

Lemma odin_results_empty_dataset_witness :
  @odin_results Q Q_arith Ref.externals ds_empty ood_reiterable = Raise ValueError
  ∧ @odin_results Q Q_arith Ref.externals ds_reiterable ds_empty = Raise ValueError.
Proof.
  split.
  - exact (proj1 (odin_results_empty_dataset (E:=Ref.externals)
                    ds_empty ood_reiterable) eq_refl).
  - exact (proj2 (odin_results_empty_dataset (E:=Ref.externals)
                    ds_reiterable ds_empty)
             sample_pred_ds (Reiterable ds_batches) sample_first_pass eq_refl).
Defined.

Lemma odin_results_auc_other_exception_witness :
  @odin_results Q Q_arith externals_index_error ds_correct ood_reiterable
  = Raise IndexError.
Proof.
  refine (odin_results_auc_other_exception (E:=externals_index_error)
            ds_correct ood_reiterable
            sample_pred_ds sample_pred_ood (sample_pred_ood ++ sample_pred_ds)
            (Reiterable ds_correct_batches) (Reiterable ood_batches)
            [0; 0; 0]%Z [0; 0; 0]%Z [false; false; false]
            [13 # 21; 13 # 21; 13 # 21]%Q
            [1 # 2; 1 # 2; 13 # 21; 13 # 21; 13 # 21]%Q
            1%Q (13 # 21)%Q (2 # 5)%Q 1%Q IndexError
            _ _ _ _ _ _ _ _ _ _ _ _ _ _);
    first [discriminate | vm_compute; reflexivity].
Defined.

Lemma odin_results_value_kinds_witness :
  (∃ x : Q, PyInt (-123456789) = PyFloat x)
  ∨ ("AUC anomaly score and misclassification"
     = "AUC anomaly score and misclassification"
     ∧ PyInt (F:=Q) (-123456789) = PyInt (-123456789)).
Proof.
  apply (odin_results_value_kinds (E:=Ref.externals) ds_correct ood_reiterable
           sample_result_correct _ _ sample_run_correct).
  vm_compute. reflexivity.
Defined.

Lemma odin_results_oneshot_second_pass_witness :
  @odin_results Q Q_arith Ref.externals ds_oneshot ood_reiterable
  = Raise ValueError.
Proof.
  exact (odin_results_oneshot_second_pass (E:=Ref.externals)
           ds_oneshot ood_reiterable ds_batches sample_pred_ds sample_pred_ood
           (OneShot []) (Reiterable ood_batches)
           eq_refl sample_first_pass_oneshot sample_second_pass).
Defined.

Lemma odin_results_in_distribution_entries_witness :
  sample_result !! "classification error"
  = sample_result_other !! "classification error"
  ∧ sample_result !! "threshold_ood" = sample_result_other !! "threshold_ood"
  ∧ sample_result !! "AUC anomaly score and misclassification"
    = sample_result_other !! "AUC anomaly score and misclassification".
Proof.
  exact (odin_results_in_distribution_entries (E:=Ref.externals)
           ds_reiterable ood_reiterable ood_other
           sample_result sample_result_other sample_run sample_run_other).
Defined.

Lemma any_above_is_max_above_witness :
  ∃ p, max1 [[1; 2]; [3; 1]]%R = Ok p
       ∧ (λ row, Z.b2z (existsb (fltb 2%R) row)) <$> [[1; 2]; [3; 1]]%R
         = (λ m, Z.b2z (fltb 2%R m)) <$> p.
Proof.
  destruct (max1_returns [[1; 2]; [3; 1]]%R) as [p Hp].
  { repeat constructor; discriminate. }
  exists p. split; [exact Hp|].
  exact (any_above_is_max_above [[1; 2]; [3; 1]]%R p 2%R Hp).
Defined.

Lemma softmax_is_plain_softmax_witness :
  softmax [[1; 2]; [3; 1]]%R = Ok (plain_softmax_row <$> [[1; 2]; [3; 1]]%R).
Proof.
  apply softmax_is_plain_softmax. repeat constructor; discriminate.
Defined.

Lemma softmax_preserves_argmax_witness :
  ∃ s, softmax (scale [[1; 2]; [3; 1]]%R 2%R) = Ok s
       ∧ np_argmax1 s = np_argmax1 [[1; 2]; [3; 1]]%R.
Proof.
  destruct (softmax_returns (scale [[1; 2]; [3; 1]]%R 2%R)) as [s Hs].
  { repeat constructor; discriminate. }
  exists s. split; [exact Hs|].
  apply (softmax_preserves_argmax [[1; 2]; [3; 1]]%R s 2%R); [lra | exact Hs].
Defined.

Lemma ODIN_confidence_bounds_witness :
  ∃ M p, (@ODIN R R_arith Ref.externals (Reiterable real_batches) Ref.step_model
            2%R (3 / 10)%R).1 = Ok M
         ∧ max1 M = Ok p
         ∧ Forall2 (λ row m, (/ INR (length row) <= m <= 1)%R) M p.
Proof.
  destruct (ODIN_returns (E:=Ref.externals) (Reiterable real_batches)
              Ref.step_model 2%R (3 / 10)%R 1) as [M HM];
    [done | exact step_model_classes |].
  destruct (ODIN_confidence_bounds (E:=Ref.externals) (Reiterable real_batches)
              Ref.step_model 2%R (3 / 10)%R M HM) as (p & Hp & Hbounds).
  exists M, p. split; [exact HM|]. split; [exact Hp | exact Hbounds].
Defined.

Lemma odin_results_ood_entries_ignore_labels_witness :
  sample_result !! "threshold_ood" = sample_result_correct !! "threshold_ood"
  ∧ sample_result !! "OOD error" = sample_result_correct !! "OOD error"
  ∧ sample_result !! "OOD AUC" = sample_result_correct !! "OOD AUC"
  ∧ sample_result !! "FPR at 95% TPR" = sample_result_correct !! "FPR at 95% TPR".
Proof.
  exact (odin_results_ood_entries_ignore_labels (E:=Ref.externals)
           ds_reiterable ds_correct ood_reiterable
           sample_result sample_result_correct
           eq_refl eq_refl sample_run sample_run_correct).
Defined.

(** ** A step of magnitude zero, and values that are not numbers *)

Section ZeroStep.
Context {F : Type} {A : Arith F} {E : Externals F}.







End ZeroStep.




